(** * My Data Reflection: the analytics of [app.py]

    A shallow embedding of the three analytical transforms of the
    application: the weighted ranking of page 3 (min-max normalisation,
    composite score, top ten), the keyword table of page 3 and the
    nearest-neighbour lookup of page 4, together with the numeric coercion
    of [get_data].

    Conventions of the embedding.
    - A Python [str] is the list of its code points ([pystr]); [len] is
      the length of that list.
    - A data-frame cell is dynamically typed: a number, a text or a
      missing value ([cell]).
    - Numbers are exact rationals ([Q]); rounding of binary floating point
      is not modelled.  Euclidean distances are carried as their squares,
      which order the records the same way; the square root is taken over
      the reals where a statement speaks of the distance itself.
    - The exact numbers describe the program on frames whose trait cells
      are numbers of magnitude at most 2^53 ([in_range]): there neither
      the int64 nor the float64 arithmetic of the columns overflows.  What
      the ranking does outside that range (int64 wrap-around, infinite
      cells, NaN) is given by a second embedding on machine numbers
      ([norm_column], [My_Score_column], [top_df_m]), with IEEE binary64
      taken from the specification of floats of the Standard Library.
    - Library tables that are not part of the program are parameters of
      the development: the numeric parser behind [pd.to_numeric], the
      rendering of a number by [astype(str)], the Unicode classes behind
      [\w] and [str.strip].
    - The projection (PCA) only produces plot coordinates; its input
      matrix is modelled, its eigen-decomposition is not. *)

From Stdlib Require Import List Bool Arith Lia NArith QArith Qminmax Lqa.
From Stdlib Require Import Permutation Sorted Reals Qreals.
From Stdlib Require Import Floats.SpecFloat.
Import ListNotations.

Set Implicit Arguments.

(** ** Cells, rows and frames *)

Definition pystr := list N.

Inductive cell : Type :=
| Num (q : Q)
| Str (s : pystr)
| NA.

(** The eight columns of [COLS_ACTIVITIES], in order. *)
Record Row : Type := mkRow {
  r_name : cell;      (* '경험명' *)
  r_kind : cell;      (* '유형' *)
  r_content : cell;   (* '내용' *)
  nAch : cell;        (* 'nAch(성취)' *)
  nPow : cell;        (* 'nPow(권력)' *)
  nAff : cell;        (* 'nAff(친화)' *)
  Flow : cell;        (* '몰입도(Flow)' *)
  memo : cell         (* '메모' *)
}.

(** The columns of [COLS_SUBJECTS] and of [COLS_BOOKS]. *)
Record SubjectRow : Type := mkSubject {
  s_name : cell;      (* '경험명' *)
  s_field : cell;     (* '분야' *)
  s_content : cell;   (* '내용' *)
  NFC : cell;         (* 'NFC(탐구욕)' *)
  NCC : cell;         (* 'NCC(종결욕)' *)
  s_memo : cell       (* '메모' *)
}.

Record BookRow : Type := mkBook {
  b_name : cell;      (* '경험명' *)
  complexity : cell;  (* '통합적복잡성' *)
  meaning : cell      (* '의미부여' *)
}.

(** The four trait columns, [cols] of page 3. *)
Inductive trait : Type := Ach | Pow | Aff | Flw.

Definition cols : list trait := [Ach; Pow; Aff; Flw].

Definition get (c : trait) (r : Row) : cell :=
  match c with
  | Ach => nAch r
  | Pow => nPow r
  | Aff => nAff r
  | Flw => Flow r
  end.

Definition is_na (c : cell) : bool :=
  match c with NA => true | _ => false end.

Fixpoint pystr_eqb (a b : pystr) : bool :=
  match a, b with
  | [], [] => true
  | x :: a', y :: b' => N.eqb x y && pystr_eqb a' b'
  | _, _ => false
  end.

(** Element-wise [==] of a column against a value: a missing value equals
    nothing, not even itself. *)
Definition cell_eqb (a b : cell) : bool :=
  match a, b with
  | Num p, Num q => Qeq_bool p q
  | Str s, Str t => pystr_eqb s t
  | _, _ => false
  end.

Definition fillna (d : Q) (o : option Q) : Q :=
  match o with Some q => q | None => d end.

(** ** Sorting and slicing helpers *)

(** Ascending insertion by a rational key; an element goes in front of the
    elements whose key is not smaller. *)
Fixpoint insert_by (A : Type) (key : A -> Q) (x : A) (l : list A) : list A :=
  match l with
  | [] => [x]
  | y :: l' => if Qle_bool (key x) (key y) then x :: y :: l'
               else y :: insert_by key x l'
  end.

Definition sort_by (A : Type) (key : A -> Q) (l : list A) : list A :=
  fold_right (insert_by key) [] l.

(** [DataFrame.tail(n)]: the last [n] rows, all of them when fewer. *)
Definition tail (A : Type) (n : nat) (l : list A) : list A :=
  skipn (length l - n) l.

(** Descending insertion by a count; an element goes in front of the
    elements whose count is not larger. *)
Fixpoint insert_desc (A : Type) (x : A * nat) (l : list (A * nat)) : list (A * nat) :=
  match l with
  | [] => [x]
  | y :: l' => if (snd y <=? snd x)%nat then x :: y :: l'
               else y :: insert_desc x l'
  end.

Definition sort_desc (A : Type) (l : list (A * nat)) : list (A * nat) :=
  fold_right (@insert_desc A) [] l.

(** ** Column statistics *)

(** [Series.min()] and [Series.max()]: undefined on an empty column. *)
Definition col_min (xs : list Q) : option Q :=
  match xs with
  | [] => None
  | x :: t => Some (fold_left Qmin t x)
  end.

Definition col_max (xs : list Q) : option Q :=
  match xs with
  | [] => None
  | x :: t => Some (fold_left Qmax t x)
  end.

(** The branch of the normalisation loop for one value of a column whose
    extremes are [mn] and [mx], on exact numbers; [norm_column] gives the
    same loop on the machine numbers of an int64 or float64 column. *)
Definition normalize (mn mx : option Q) (v : Q) : Q :=
  match mn, mx with
  | Some a, Some b =>
      if Qeq_bool (b - a) 0 then 1 # 2 else (v - a) / (b - a)
  | _, _ => 1 # 2
  end.

(** The weight sliders of the sidebar. *)
Record Weights : Type := mkWeights {
  w_ach : Q;
  w_pow : Q;
  w_aff : Q;
  w_flow : Q
}.

Definition weight (w : Weights) (c : trait) : Q :=
  match c with
  | Ach => w_ach w
  | Pow => w_pow w
  | Aff => w_aff w
  | Flw => w_flow w
  end.

Definition vec3 : Type := (Q * Q * Q)%type.

Definition sqdist (a b : vec3) : Q :=
  let '(a1, a2, a3) := a in
  let '(b1, b2, b3) := b in
  (a1 - b1) * (a1 - b1) + (a2 - b2) * (a2 - b2) + (a3 - b3) * (a3 - b3).

(** The Euclidean distance itself. *)
Definition euclidean (a b : vec3) : R := sqrt (Q2R (sqdist a b)).

Definition origin : vec3 := (0, 0, 0).

(** What a page section puts on the screen. *)
Inductive view (A : Type) : Type :=
| Shown (a : A)      (* the chart or list *)
| Info               (* st.info *)
| Warning            (* st.warning *)
| Error.             (* st.error, from an except branch *)

Arguments Info {A}.
Arguments Warning {A}.
Arguments Error {A}.

(** ** The stop words of the keyword section *)

Definition stop_words : list pystr :=
  [ [54616; 45716]; [51080; 45716]; [44032; 51109]; [53685; 54644];
    [45824; 54620]; [44163; 51060]; [45236; 44032]; [45208; 51032];
    [54632]; [51020]; [45716]; [51008]; [51060]; [44032]; [51012];
    [47484]; [110; 97; 110]; [78; 111; 110; 101] ]%N.

Definition str_nan : pystr := [110; 97; 110]%N.
Definition str_None : pystr := [78; 111; 110; 101]%N.

Definition is_stop_word (w : pystr) : bool :=
  existsb (pystr_eqb w) stop_words.

(** [Counter]: a dictionary in insertion order, as an association list. *)
Fixpoint counter_add (w : pystr) (c : list (pystr * nat)) : list (pystr * nat) :=
  match c with
  | [] => [(w, 1%nat)]
  | (k, n) :: c' =>
      if pystr_eqb k w then (k, S n) :: c' else (k, n) :: counter_add w c'
  end.

Definition Counter (ws : list pystr) : list (pystr * nat) :=
  fold_left (fun c w => counter_add w c) ws [].

(** [c[w]]: the count of a word, 0 when it is no key. *)
Fixpoint counter_get (c : list (pystr * nat)) (w : pystr) : nat :=
  match c with
  | [] => 0
  | (k, n) :: c' => if pystr_eqb k w then n else counter_get c' w
  end.

Definition pystr_eq_dec : forall a b : pystr, {a = b} + {a <> b} :=
  list_eq_dec N.eq_dec.

(** [Counter.most_common(n)]: the [n] largest counts, equal counts in
    dictionary order. *)
Definition most_common (n : nat) (c : list (pystr * nat)) : list (pystr * nat) :=
  firstn n (sort_desc c).

(** The order of [most_common]: a larger count first, and among equal
    counts the entry of smaller rank. *)
Definition ranked_before (A : Type) (rk : A -> nat) (a b : A * nat) : Prop :=
  (snd b < snd a)%nat \/ (snd a = snd b /\ (rk (fst a) < rk (fst b))%nat).

(** Position of the first occurrence of a word; the length when absent. *)
Fixpoint first_index (w : pystr) (ws : list pystr) : nat :=
  match ws with
  | [] => 0
  | x :: t => if pystr_eqb x w then 0 else S (first_index w t)
  end.

(** ** Library parameters *)

Class Library : Type := {
  (** The numeric parser of [pd.to_numeric] on a text cell, for the texts
      it reads as a finite number; a text it reads as an infinite number
      has no value here, and the statements on the ranking and on page 4
      are made for frames without text cells ([in_range]). *)
  parse_numeric : pystr -> option Q;
  (** [str] of a number, as [astype(str)] renders it. *)
  str_of_num : Q -> pystr;
  (** The class [\w] of the regular-expression engine. *)
  word_char : N -> bool;
  (** The white space removed by [str.strip]. *)
  is_space : N -> bool
}.

Section Program.

Context {lib : Library}.

(** ** Numeric coercion *)

(** [pd.to_numeric(col, errors='coerce')] on one cell. *)
Definition to_numeric (c : cell) : option Q :=
  match c with
  | Num q => Some q
  | Str s => parse_numeric s
  | NA => None
  end.

(** [pd.to_numeric(col, errors='coerce').fillna(0)] on one cell. *)
Definition coerce (c : cell) : Q := fillna 0 (to_numeric c).

(** ** get_data, for the worksheet 'activities' *)

Definition coerce_traits (r : Row) : Row :=
  mkRow (r_name r) (r_kind r) (r_content r)
        (Num (coerce (nAch r))) (Num (coerce (nPow r)))
        (Num (coerce (nAff r))) (Num (coerce (Flow r)))
        (memo r).

Definition all_na (r : Row) : bool :=
  is_na (r_name r) && is_na (r_kind r) && is_na (r_content r) &&
  is_na (nAch r) && is_na (nPow r) && is_na (nAff r) && is_na (Flow r) &&
  is_na (memo r).

(** [dropna(how='all')]. *)
Definition dropna_all (df : list Row) : list Row :=
  filter (fun r => negb (all_na r)) df.

(** The sheet read is [None] when the connection raised; a column the
    sheet lacks arrives as [NA] in every row. *)
Definition get_data (sheet : option (list Row)) : list Row :=
  match sheet with
  | None => []
  | Some rows => dropna_all (map coerce_traits rows)
  end.

(** [get_data] for the worksheets 'subjects' and 'books'. *)
Definition coerce_subject (r : SubjectRow) : SubjectRow :=
  mkSubject (s_name r) (s_field r) (s_content r)
            (Num (coerce (NFC r))) (Num (coerce (NCC r))) (s_memo r).

Definition subject_all_na (r : SubjectRow) : bool :=
  is_na (s_name r) && is_na (s_field r) && is_na (s_content r) &&
  is_na (NFC r) && is_na (NCC r) && is_na (s_memo r).

Definition get_data_subjects (sheet : option (list SubjectRow)) : list SubjectRow :=
  match sheet with
  | None => []
  | Some rows => filter (fun r => negb (subject_all_na r)) (map coerce_subject rows)
  end.

Definition coerce_book (r : BookRow) : BookRow :=
  mkBook (b_name r) (Num (coerce (complexity r))) (meaning r).

Definition book_all_na (r : BookRow) : bool :=
  is_na (b_name r) && is_na (complexity r) && is_na (meaning r).

Definition get_data_books (sheet : option (list BookRow)) : list BookRow :=
  match sheet with
  | None => []
  | Some rows => filter (fun r => negb (book_all_na r)) (map coerce_book rows)
  end.

(** ** Page 3: weighted ranking *)

(** The value of a trait column in a row of [act_df], after the safe
    conversion at the top of the section. *)
Definition value (c : trait) (r : Row) : Q := coerce (get c r).

Definition column (c : trait) (df : list Row) : list Q := map (value c) df.

(** The cell of the column [f'{col}_norm'] in the row [r] of [act_df]. *)
Definition norm (df : list Row) (c : trait) (r : Row) : Q :=
  normalize (col_min (column c df)) (col_max (column c df)) (value c r).

(** One summand of [My_Score]. *)
Definition contribution (w : Weights) (df : list Row) (c : trait) (r : Row) : Q :=
  norm df c r * weight w c.

Definition My_Score (w : Weights) (df : list Row) (r : Row) : Q :=
  contribution w df Ach r + contribution w df Pow r +
  contribution w df Aff r + contribution w df Flw r.

(** [act_df] with its score column. *)
Definition act_df (w : Weights) (df : list Row) : list (Row * Q) :=
  map (fun r => (r, My_Score w df r)) df.

Definition top_df (w : Weights) (df : list Row) : list (Row * Q) :=
  tail 10 (sort_by (@snd Row Q) (act_df w df)).

Definition page3_ranking (w : Weights) (df : list Row) : view (list (Row * Q)) :=
  if (1 <=? length df)%nat then Shown (top_df w df) else Info.

(** ** Page 3: keywords *)

(** [re.findall(r'\w+', s)]: the maximal runs of word characters, left to
    right; [cur] is the run being read, reversed. *)
Fixpoint findall_w (cur : pystr) (s : pystr) : list pystr :=
  match s with
  | [] => match cur with [] => [] | _ => [rev cur] end
  | ch :: s' =>
      if word_char ch then findall_w (ch :: cur) s'
      else match cur with
           | [] => findall_w [] s'
           | _ => rev cur :: findall_w [] s'
           end
  end.

(** [col.dropna().astype(str).tolist()]. *)
Definition memo_texts (cells : list cell) : list pystr :=
  flat_map (fun c => match c with
                     | NA => []
                     | Str s => [s]
                     | Num q => [str_of_num q]
                     end) cells.

(** [" ".join(texts)]. *)
Fixpoint join_space (texts : list pystr) : pystr :=
  match texts with
  | [] => []
  | [t] => t
  | t :: rest => t ++ 32%N :: join_space rest
  end.

(** The memo columns of activities and subjects and the meaning column of
    books, pooled into [all_text]; an empty frame adds nothing. *)
Definition pooled_text (act_memo sub_memo book_meaning : list cell) : pystr :=
  join_space (memo_texts act_memo ++ memo_texts sub_memo ++
              memo_texts book_meaning).

(** The list comprehension that filters [words]. *)
Definition keep_word (w : pystr) : bool :=
  (1 <? length w)%nat && negb (is_stop_word w).

Definition words (all_text : pystr) : list pystr :=
  filter keep_word (findall_w [] all_text).

Definition word_counts (all_text : pystr) : list (pystr * nat) :=
  most_common 30 (Counter (words all_text)).

(** [all_text.strip()] is non-empty exactly when some character is not
    white space. *)
Definition strip_nonempty (s : pystr) : bool :=
  existsb (fun ch => negb (is_space ch)) s.

Definition page3_keywords (texts : list pystr) : view (list (pystr * nat)) :=
  let all_text := join_space texts in
  if strip_nonempty all_text then
    match word_counts all_text with
    | [] => Info
    | wc => Shown wc
    end
  else Info.

(** ** Page 4: similar experiences *)

Definition numeric_vec (r : Row) : vec3 :=
  (value Ach r, value Pow r, value Aff r).

(** The matrix [act_df[numeric_cols]], fitted by the neighbour search and
    handed to the projection. *)
Definition fit_X (df : list Row) : list vec3 := map numeric_vec df.

(** [act_df[act_df['경험명'] == selected_act_name].iloc[0]]; [None] is the
    IndexError of an empty selection. *)
Definition target_row (df : list Row) (selected : cell) : option Row :=
  hd_error (filter (fun r => cell_eqb (r_name r) selected) df).

Definition target_vec (t : Row) : vec3 := numeric_vec t.

Definition n_neighbors (df : list Row) : nat := Nat.min 4 (length df).

(** Position of the anchor row in the frame. *)
Fixpoint target_index (df : list Row) (selected : cell) : option nat :=
  match df with
  | [] => None
  | r :: df' =>
      if cell_eqb (r_name r) selected then Some 0%nat
      else option_map S (target_index df' selected)
  end.

(** The marker sizes of the scatter plot, [act_df['Flow']*0.3 + 10]; the
    plotting library refuses a negative size when the trace is built. *)
Definition marker_size (r : Row) : Q := value Flw r * (3 # 10) + 10.

Definition markers_valid (df : list Row) : bool :=
  forallb (fun r => Qle_bool 0 (marker_size r)) df.

Section Search.

(** [search X k q] stands for [indices[0]] of
    [NearestNeighbors(n_neighbors=k).fit(X).kneighbors(q)]. *)
Variable search : list vec3 -> nat -> vec3 -> list nat.

(** [distances[0]], squared. *)
Definition sq_distances (X : list vec3) (q : vec3) (inds : list nat) : list Q :=
  map (fun i => sqdist q (nth i X origin)) inds.

(** [indices[0][1:]]. *)
Definition neighbor_indices_with (df : list Row) (selected : cell) : option (list nat) :=
  match target_row df selected with
  | None => None
  | Some t => Some (tl (search (fit_X df) (n_neighbors df) (target_vec t)))
  end.

(** The reported list with the squared distance of each entry. *)
Definition neighbor_list_with (df : list Row) (selected : cell) : option (list (nat * Q)) :=
  match target_row df selected with
  | None => None
  | Some t =>
      let inds := search (fit_X df) (n_neighbors df) (target_vec t) in
      Some (tl (combine inds (sq_distances (fit_X df) (target_vec t) inds)))
  end.

(** The page: the guard on the number of activities, then the [try]
    block, which ends in [st.error] when no row has the chosen name
    ([iloc[0]] on an empty selection) or when the figure is refused for a
    negative marker size, and otherwise writes the list.  On numbers in
    range the projection raises nothing. *)
Definition page4_with (df : list Row) (selected : cell) : view (list nat) :=
  if (3 <=? length df)%nat then
    match neighbor_indices_with df selected with
    | Some l => if markers_valid df then Shown l else Error
    | None => Error
    end
  else Warning.

End Search.

(** The documented behaviour of the neighbour search on a query of [k]
    neighbours among at least [k] fitted points: [k] distinct positions,
    nearest first, none farther than a point left out. *)
Record KnnContract (search : list vec3 -> nat -> vec3 -> list nat) : Prop := {
  knn_length : forall X k q, (k <= length X)%nat -> length (search X k q) = k;
  knn_range : forall X k q i, In i (search X k q) -> (i < length X)%nat;
  knn_nodup : forall X k q, NoDup (search X k q);
  knn_sorted : forall X k q,
      StronglySorted (fun i j => sqdist q (nth i X origin) <= sqdist q (nth j X origin))
                     (search X k q);
  knn_nearest : forall X k q i j,
      (k <= length X)%nat ->
      In i (search X k q) -> (j < length X)%nat -> ~ In j (search X k q) ->
      sqdist q (nth i X origin) <= sqdist q (nth j X origin)
}.

(** An exhaustive search: the positions, taken in the order [order n] for
    [n] fitted points, are sorted by distance with equal distances left as
    they come, and the first [k] are kept. *)
Definition search_in_order (order : nat -> list nat)
    (X : list vec3) (k : nat) (q : vec3) : list nat :=
  firstn k (sort_by (fun i => sqdist q (nth i X origin)) (order (length X))).

(** The reference search: equal distances in frame order. *)
Definition kneighbors : list vec3 -> nat -> vec3 -> list nat :=
  search_in_order (seq 0).

(** The same search with equal distances in reverse frame order. *)
Definition kneighbors_last_first : list vec3 -> nat -> vec3 -> list nat :=
  search_in_order (fun n => rev (seq 0 n)).

Definition neighbor_indices : list Row -> cell -> option (list nat) :=
  neighbor_indices_with kneighbors.

Definition neighbor_list : list Row -> cell -> option (list (nat * Q)) :=
  neighbor_list_with kneighbors.

Definition page4 : list Row -> cell -> view (list nat) :=
  page4_with kneighbors.

End Program.

(** ** Weight vectors used in the statements *)

(** The weight vector with the weight of one column multiplied by [k]. *)
Definition scale_weight (c : trait) (k : Q) (w : Weights) : Weights :=
  match c with
  | Ach => mkWeights (k * w_ach w) (w_pow w) (w_aff w) (w_flow w)
  | Pow => mkWeights (w_ach w) (k * w_pow w) (w_aff w) (w_flow w)
  | Aff => mkWeights (w_ach w) (w_pow w) (k * w_aff w) (w_flow w)
  | Flw => mkWeights (w_ach w) (w_pow w) (w_aff w) (k * w_flow w)
  end.

Definition zero_weights : Weights := mkWeights 0 0 0 0.

Definition default_weights : Weights := mkWeights 1 1 1 1.

(** Two rows that agree on the name and on the three columns of the
    distance; everything else, the flow score included, is free. *)
Definition same_metric_columns (r1 r2 : Row) : Prop :=
  r_name r1 = r_name r2 /\ nAch r1 = nAch r2 /\
  nPow r1 = nPow r2 /\ nAff r1 = nAff r2.

(** ** Sample library tables and frames *)

(** Unsigned decimal literals, enough of the numeric parser for the
    samples. *)
Fixpoint digits_value (acc : N) (s : pystr) : option N :=
  match s with
  | [] => Some acc
  | ch :: s' =>
      if ((48 <=? ch) && (ch <=? 57))%N
      then digits_value (acc * 10 + (ch - 48))%N s'
      else None
  end.

Definition parse_digits (s : pystr) : option Q :=
  match s with
  | [] => None
  | _ => option_map (fun n => inject_Z (Z.of_N n)) (digits_value 0%N s)
  end.

(** ASCII letters, digits, the underscore and the Hangul syllables. *)
Definition sample_word_char (ch : N) : bool :=
  ((48 <=? ch) && (ch <=? 57) || (65 <=? ch) && (ch <=? 90) ||
   (97 <=? ch) && (ch <=? 122) || (ch =? 95) ||
   (44032 <=? ch) && (ch <=? 55203))%N.

Definition sample_is_space (ch : N) : bool :=
  ((ch =? 32) || (9 <=? ch) && (ch <=? 13))%N.

(** The sample frames hold no numeric memo, so one rendering serves. *)
Definition sample_str_of_num (q : Q) : pystr := [48; 46; 48]%N.

Definition sample_library : Library := {|
  parse_numeric := parse_digits;
  str_of_num := sample_str_of_num;
  word_char := sample_word_char;
  is_space := sample_is_space
|}.

Definition activity (name : pystr) (a p f fl : Q) : Row :=
  mkRow (Str name) (Str [] ) (Str []) (Num a) (Num p) (Num f) (Num fl) NA.

(** Three activities; the first two have the same trait vector. *)
Definition twin_df : list Row :=
  [ activity [66%N] 1 1 1 10;
    activity [65%N] 1 1 1 20;
    activity [67%N] 5 5 5 30 ].

(** The same activities with other flow scores. *)
Definition twin_df_other_flow : list Row :=
  [ activity [66%N] 1 1 1 70;
    activity [65%N] 1 1 1 0;
    activity [67%N] 5 5 5 55 ].

(** The same activities, the first with a flow score of -100. *)
Definition twin_df_negative_flow : list Row :=
  [ activity [66%N] 1 1 1 (-100);
    activity [65%N] 1 1 1 20;
    activity [67%N] 5 5 5 30 ].

(** The second and the third activity are at distance 1 from the first. *)
Definition tie_df : list Row :=
  [ activity [65%N] 1 1 1 10;
    activity [66%N] 2 1 1 20;
    activity [67%N] 1 2 1 30 ].

(** Achievement 0, 5, 10. *)
Definition spread_df : list Row :=
  [ activity [97%N] 0 3 3 50;
    activity [98%N] 5 3 4 50;
    activity [99%N] 10 3 8 50 ].

(** A sheet with a missing and a non-numeric trait. *)
Definition ragged_sheet : list Row :=
  [ mkRow (Str [97%N]) NA NA NA (Str [120%N]) (Str [55%N]) (Num 40) NA ].

(** Two activities of the same name. *)
Definition homonym_df : list Row :=
  [ activity [67%N] 9 9 9 10;
    activity [65%N] 1 1 1 20;
    activity [65%N] 2 1 1 30;
    activity [68%N] 4 4 4 40 ].

(** "좋은 경험이었다 nan None 경험" *)
Definition sample_text : pystr :=
  [51339; 51008; 32; 44221; 54744; 51060; 50632; 45796; 32; 110; 97; 110;
   32; 78; 111; 110; 101; 32; 44221; 54744]%N.

(** ** The worksheet 'questions' *)

(** The columns of [COLS_QUESTIONS]. *)
Record QuestionRow : Type := mkQuestion {
  q_item : cell;      (* '문항' *)
  q_material : cell;  (* '소재' *)
  q_content : cell    (* '내용' *)
}.

Definition question_all_na (r : QuestionRow) : bool :=
  is_na (q_item r) && is_na (q_material r) && is_na (q_content r).

(** [get_data] for the worksheet 'questions': no column is numeric, so the
    frame only goes through [dropna(how='all')]. *)
Definition get_data_questions (sheet : option (list QuestionRow)) : list QuestionRow :=
  match sheet with
  | None => []
  | Some rows => filter (fun r => negb (question_all_na r)) rows
  end.

(** ** Page 5: the material labels *)

Fixpoint starts_with (p s : pystr) : bool :=
  match p, s with
  | [], _ => true
  | x :: p', y :: s' => N.eqb x y && starts_with p' s'
  | _ :: _, [] => false
  end.

(** Whether [sep] occurs somewhere in [s]. *)
Fixpoint occurs (sep s : pystr) : bool :=
  match s with
  | [] => starts_with sep []
  | _ :: s' => starts_with sep s || occurs sep s'
  end.

(** [s.split(sep)] for a non-empty separator, scanning left to right;
    [skip] counts the characters of a separator still to be passed and
    [cur] is the piece being read, reversed. *)
Fixpoint split_aux (sep : pystr) (skip : nat) (cur : pystr) (s : pystr) : list pystr :=
  match s with
  | [] => [rev cur]
  | ch :: s' =>
      match skip with
      | S n => split_aux sep n cur s'
      | O => if starts_with sep s
             then rev cur :: split_aux sep (length sep - 1) [] s'
             else split_aux sep 0 (ch :: cur) s'
      end
  end.

Definition split (sep s : pystr) : list pystr := split_aux sep 0 [] s.

(** [s.replace(ch, '')] for a single character. *)
Definition remove_char (ch : N) (s : pystr) : pystr :=
  filter (fun x => negb (N.eqb x ch)) s.

Definition sep_bracket : pystr := [93; 32]%N.            (* '] ' *)
Definition tag_activity : pystr := [91; 54876; 46041; 93; 32]%N.  (* '[활동] ' *)
Definition tag_subject : pystr := [91; 44284; 47785; 93; 32]%N.   (* '[과목] ' *)
Definition tag_book : pystr := [91; 46021; 49436; 93; 32]%N.      (* '[독서] ' *)
Definition type_activity : pystr := [54876; 46041]%N.    (* '활동' *)
Definition type_subject : pystr := [44284; 47785]%N.     (* '과목' *)
Definition type_book : pystr := [46021; 49436]%N.        (* '독서' *)

Section Drafting.

Context {lib : Library}.

(** The text an f-string gives for a missing value. *)
Variable format_missing : pystr.

(** [f"{x}"] for a cell. *)
Definition fstr (c : cell) : pystr :=
  match c with
  | Str s => s
  | Num q => str_of_num q
  | NA => format_missing
  end.

Definition all_materials (acts : list Row) (subs : list SubjectRow)
    (books : list BookRow) : list pystr :=
  map (fun r => tag_activity ++ fstr (r_name r)) acts ++
  map (fun r => tag_subject ++ fstr (s_name r)) subs ++
  map (fun r => tag_book ++ fstr (b_name r)) books.

(** The three [detail] lines. *)
Definition detail_activity (r : Row) : pystr :=
  [49457; 52712; 58; 32]%N ++ fstr (nAch r) ++
  [32; 124; 32; 47792; 51077; 58; 32]%N ++ fstr (Flow r) ++
  [32; 124; 32; 47700; 47784; 58; 32]%N ++ fstr (memo r).

Definition detail_subject (r : SubjectRow) : pystr :=
  [53456; 44396; 58; 32]%N ++ fstr (NFC r) ++
  [32; 124; 32; 51333; 44208; 58; 32]%N ++ fstr (NCC r) ++
  [32; 124; 32; 47700; 47784; 58; 32]%N ++ fstr (s_memo r).

Definition detail_book (r : BookRow) : pystr :=
  [51032; 48120; 48512; 50668; 58; 32]%N ++ fstr (meaning r).

(** [f"- {item}: {detail}\n"]. *)
Definition evidence_entry (item detail : pystr) : pystr :=
  [45; 32]%N ++ item ++ [58; 32]%N ++ detail ++ [10%N].

(** The body of the loop over [selected_materials] for one item: the line
    it adds to [evidence_text], or [None] when an exception makes the loop
    continue. *)
Definition evidence_line (acts : list Row) (subs : list SubjectRow)
    (books : list BookRow) (item : pystr) : option pystr :=
  match nth_error (split sep_bracket item) 0,
        nth_error (split sep_bracket item) 1 with
  | Some m_type_raw, Some m_name =>
      let m_type := remove_char 93 (remove_char 91 m_type_raw) in
      let detail :=
        if pystr_eqb m_type type_activity then
          option_map detail_activity (target_row acts (Str m_name))
        else if pystr_eqb m_type type_subject then
          option_map detail_subject
            (hd_error (filter (fun r => cell_eqb (s_name r) (Str m_name)) subs))
        else if pystr_eqb m_type type_book then
          option_map detail_book
            (hd_error (filter (fun r => cell_eqb (b_name r) (Str m_name)) books))
        else Some [] in
      option_map (evidence_entry item) detail
  | _, _ => None
  end.

Definition evidence_text (acts : list Row) (subs : list SubjectRow)
    (books : list BookRow) (selected_materials : list pystr) : pystr :=
  concat (flat_map (fun item =>
                      match evidence_line acts subs books item with
                      | Some line => [line]
                      | None => []
                      end) selected_materials).

End Drafting.

(** Samples for page 5: an activity whose name holds the separator. *)
Definition bracket_name : pystr := [97; 93; 32; 98]%N.   (* 'a] b' *)

Definition bracket_df : list Row :=
  [ activity [97%N] 1 2 3 10;
    activity bracket_name 4 5 6 20;
    activity [99%N] 7 8 9 30 ].

Definition sample_missing : pystr := [110; 97; 110]%N.   (* 'nan' *)

(** Two trait vectors with the same numbers. *)
Definition same_vec (a b : vec3) : Prop :=
  fst (fst a) == fst (fst b) /\ snd (fst a) == snd (fst b) /\ snd a == snd b.

(** ** The range of the exact numbers *)

(** A trait cell whose number is the same in an int64 and in a float64
    column and far from overflow: a number between -2^53 and 2^53, or a
    missing value (which the coercion turns into 0). *)
Definition safe_cell (c : cell) : bool :=
  match c with
  | Num q => Qle_bool (- (9007199254740992)) q && Qle_bool q 9007199254740992
  | NA => true
  | Str _ => false
  end.

Definition in_range (df : list Row) : bool :=
  forallb (fun r => forallb (fun c => safe_cell (get c r)) cols) df.

(** A frame whose trait cells hold whole numbers, as the sliders of the
    entry form give them. *)
Definition integer_cell (c : cell) : bool :=
  match c with
  | Num q => Pos.eqb (Qden q) 1
  | NA => true
  | Str _ => false
  end.

Definition integer_traits (df : list Row) : bool :=
  forallb (fun r => forallb (fun c => integer_cell (get c r)) cols) df.

(** The weights the sliders can give: 0.0, 0.1, ..., 3.0. *)
Definition slider_step (q : Q) : bool :=
  existsb (fun k => Qeq_bool q (inject_Z (Z.of_nat k) / 10)) (seq 0 31).

Definition slider_weights (w : Weights) : bool :=
  forallb (fun c => slider_step (weight w c)) cols.

(** ** The ranking on machine numbers *)

(** IEEE binary64, as [float64] columns and Python floats have it. *)
Definition f64 : Type := spec_float.

Definition f64_of_Z (z : Z) : f64 := binary_normalize 53 1024 z 0 false.
Definition f64_add : f64 -> f64 -> f64 := SFadd 53 1024.
Definition f64_sub : f64 -> f64 -> f64 := SFsub 53 1024.
Definition f64_mul : f64 -> f64 -> f64 := SFmul 53 1024.
Definition f64_div : f64 -> f64 -> f64 := SFdiv 53 1024.
Definition f64_zero : f64 := S754_zero false.
Definition f64_half : f64 := f64_div (f64_of_Z 1) (f64_of_Z 2).
Definition f64_inf : f64 := S754_infinity false.

Definition f64_isnan (x : f64) : bool :=
  match x with S754_nan => true | _ => false end.

(** Arithmetic of [int64]: the result modulo 2^64, in [-2^63, 2^63). *)
Definition wrap64 (z : Z) : Z :=
  ((z + 9223372036854775808) mod 18446744073709551616 - 9223372036854775808)%Z.

(** A numeric column after the conversion at the top of the section: of
    dtype int64 when the sheet held integers only, of dtype float64
    otherwise. *)
Inductive mcolumn : Type :=
| I64 (xs : list Z)
| F64 (xs : list f64).

(** [Series.min()] and [Series.max()] of a float64 column: missing values
    are skipped, the result is NaN when nothing is left. *)
Definition f64_min2 (a x : f64) : f64 :=
  if f64_isnan x then a
  else if f64_isnan a then x
  else if SFltb x a then x else a.

Definition f64_max2 (a x : f64) : f64 :=
  if f64_isnan x then a
  else if f64_isnan a then x
  else if SFltb a x then x else a.

Definition f64_col_min (xs : list f64) : f64 := fold_left f64_min2 xs S754_nan.
Definition f64_col_max (xs : list f64) : f64 := fold_left f64_max2 xs S754_nan.

(** The column [f'{col}_norm'] that the normalisation loop writes. *)
Definition norm_column (col : mcolumn) : list f64 :=
  match col with
  | I64 [] => []
  | I64 (x :: t) =>
      let min_val := fold_left Z.min t x in
      let max_val := fold_left Z.max t x in
      if (wrap64 (max_val - min_val) =? 0)%Z
      then map (fun _ => f64_half) (x :: t)
      else map (fun v => f64_div (f64_of_Z (wrap64 (v - min_val)))
                                 (f64_of_Z (wrap64 (max_val - min_val))))
               (x :: t)
  | F64 xs =>
      let min_val := f64_col_min xs in
      let max_val := f64_col_max xs in
      if f64_isnan min_val || f64_isnan max_val ||
         SFeqb (f64_sub max_val min_val) f64_zero
      then map (fun _ => f64_half) xs
      else map (fun v => f64_div (f64_sub v min_val) (f64_sub max_val min_val)) xs
  end.

(** The four trait columns of [act_df] and the four slider values. *)
Record mframe : Type := mkFrame {
  c_ach : mcolumn;
  c_pow : mcolumn;
  c_aff : mcolumn;
  c_flow : mcolumn
}.

Record mweights : Type := mkMWeights {
  mw_ach : f64;
  mw_pow : f64;
  mw_aff : f64;
  mw_flow : f64
}.

(** One summand of [My_Score], as a column. *)
Definition contribution_column (w : f64) (col : mcolumn) : list f64 :=
  map (fun n => f64_mul n w) (norm_column col).

(** The column [My_Score]. *)
Definition My_Score_column (w : mweights) (df : mframe) : list f64 :=
  map (fun x => match x with
                | (a, p, f, l) => f64_add (f64_add (f64_add a p) f) l
                end)
      (combine (combine (combine (contribution_column (mw_ach w) (c_ach df))
                                 (contribution_column (mw_pow w) (c_pow df)))
                        (contribution_column (mw_aff w) (c_aff df)))
               (contribution_column (mw_flow w) (c_flow df))).

(** [sort_values(ascending=True)]: smaller scores first, NaN last. *)
Definition score_before (x y : f64) : bool :=
  f64_isnan y || (negb (f64_isnan x) && SFleb x y).

Fixpoint insert_score (x : nat * f64) (l : list (nat * f64)) : list (nat * f64) :=
  match l with
  | [] => [x]
  | y :: l' => if score_before (snd x) (snd y) then x :: y :: l'
               else y :: insert_score x l'
  end.

Definition sort_values_m (l : list (nat * f64)) : list (nat * f64) :=
  fold_right insert_score [] l.

(** [top_df]: the positions of the rows kept, each with its score. *)
Definition top_df_m (w : mweights) (df : mframe) : list (nat * f64) :=
  let scores := My_Score_column w df in
  tail 10 (sort_values_m (combine (seq 0 (length scores)) scores)).

(** Whether a list of scores is in ascending order. *)
Fixpoint f64_ascending (l : list f64) : bool :=
  match l with
  | x :: ((y :: _) as l') => SFleb x y && f64_ascending l'
  | _ => true
  end.

(** Sample columns on machine numbers. *)
Definition wide_column : mcolumn :=
  I64 [-5000000000000000000; 0; 5000000000000000000]%Z.

Definition infinite_column : mcolumn :=
  F64 [f64_zero; f64_of_Z 5; f64_inf].

Definition steps_column : mcolumn := I64 [0; 3; 10]%Z.

Definition flat_column : mcolumn := I64 [5; 5; 5]%Z.

Definition infinite_frame : mframe :=
  mkFrame infinite_column flat_column flat_column flat_column.

Definition unit_mweights : mweights :=
  mkMWeights (f64_of_Z 1) (f64_of_Z 1) (f64_of_Z 1) (f64_of_Z 1).

Definition zero_mweights : mweights :=
  mkMWeights f64_zero f64_zero f64_zero f64_zero.

(** The slider values 0.1 and 0.3. *)
Definition f64_tenth : f64 := f64_div (f64_of_Z 1) (f64_of_Z 10).
Definition f64_three_tenths : f64 := f64_div (f64_of_Z 3) (f64_of_Z 10).

(** * Properties *)

(** ** Lists *)

Lemma StronglySorted_app_inv (A : Type) (R : A -> A -> Prop) (l1 l2 : list A) :
  StronglySorted R (l1 ++ l2) ->
  StronglySorted R l1 /\ StronglySorted R l2 /\
  (forall a b, In a l1 -> In b l2 -> R a b).
Proof.
  induction l1 as [|x l1 IH]; simpl; intros H.
  - repeat split; [constructor | assumption | intros a b []].
  - inversion H as [|? ? Hs Hall]; subst.
    destruct (IH Hs) as (H1 & H2 & H3).
    rewrite Forall_app in Hall. destruct Hall as [Ha1 Ha2].
    repeat split; [constructor; assumption | assumption |].
    intros a b [<-|Ha] Hb.
    + rewrite Forall_forall in Ha2. now apply Ha2.
    + now apply H3.
Qed.

Lemma StronglySorted_firstn (A : Type) (R : A -> A -> Prop) (n : nat) (l : list A) :
  StronglySorted R l -> StronglySorted R (firstn n l).
Proof.
  intros H. rewrite <- (firstn_skipn n l) in H.
  now apply StronglySorted_app_inv in H.
Qed.

Lemma StronglySorted_skipn (A : Type) (R : A -> A -> Prop) (n : nat) (l : list A) :
  StronglySorted R l -> StronglySorted R (skipn n l).
Proof.
  intros H. rewrite <- (firstn_skipn n l) in H.
  now apply StronglySorted_app_inv in H.
Qed.

Lemma StronglySorted_tl (A : Type) (R : A -> A -> Prop) (l : list A) :
  StronglySorted R l -> StronglySorted R (tl l).
Proof.
  destruct l; simpl; intros H; [constructor | now inversion H].
Qed.

Lemma StronglySorted_nth_error (A : Type) (R : A -> A -> Prop) (l : list A) :
  StronglySorted R l ->
  forall i j a b, (i < j)%nat ->
    nth_error l i = Some a -> nth_error l j = Some b -> R a b.
Proof.
  induction 1 as [|x l Hs IH Hall]; intros i j a b Hij Hi Hj.
  - destruct i; discriminate.
  - destruct j as [|j]; [lia|]. simpl in Hj.
    destruct i as [|i]; simpl in Hi.
    + injection Hi as <-. rewrite Forall_forall in Hall.
      apply Hall. eapply nth_error_In; eauto.
    + apply (IH i j); auto; lia.
Qed.

(** ** The ascending sort *)

Section SortBy.

Variable A : Type.
Variable key : A -> Q.

Lemma insert_by_perm (x : A) (l : list A) :
  Permutation (insert_by key x l) (x :: l).
Proof.
  induction l as [|y l IH]; simpl; [reflexivity|].
  destruct (Qle_bool (key x) (key y)); [reflexivity|].
  rewrite IH. apply perm_swap.
Qed.

Lemma sort_by_perm (l : list A) : Permutation (sort_by key l) l.
Proof.
  induction l as [|x l IH]; simpl; [reflexivity|].
  rewrite insert_by_perm. now constructor.
Qed.

Lemma insert_by_sorted (x : A) (l : list A) :
  StronglySorted (fun a b => key a <= key b) l ->
  StronglySorted (fun a b => key a <= key b) (insert_by key x l).
Proof.
  induction 1 as [|y l Hs IH Hall]; simpl.
  - repeat constructor.
  - destruct (Qle_bool (key x) (key y)) eqn:E.
    + apply Qle_bool_iff in E.
      constructor; [constructor; assumption|].
      constructor; [assumption|].
      eapply Forall_impl; [|exact Hall].
      intros a Ha. simpl in Ha. eapply Qle_trans; eauto.
    + assert (Hyx : key y <= key x).
      { apply Qlt_le_weak, Qnot_le_lt. intros Hc.
        apply Qle_bool_iff in Hc. congruence. }
      constructor; [assumption|].
      eapply Permutation_Forall; [symmetry; apply insert_by_perm|].
      constructor; assumption.
Qed.

Lemma sort_by_sorted (l : list A) :
  StronglySorted (fun a b => key a <= key b) (sort_by key l).
Proof.
  induction l as [|x l IH]; simpl; [constructor|].
  now apply insert_by_sorted.
Qed.

Lemma sort_by_length (l : list A) : length (sort_by key l) = length l.
Proof. apply Permutation_length, sort_by_perm. Qed.

End SortBy.

(** ** Column extremes *)

Lemma fold_min_lower (t : list Q) (x : Q) :
  fold_left Qmin t x <= x /\ Forall (fun v => fold_left Qmin t x <= v) t.
Proof.
  revert x. induction t as [|y t IH]; intros x; simpl.
  - split; [apply Qle_refl | constructor].
  - destruct (IH (Qmin x y)) as [H1 H2]. split.
    + eapply Qle_trans; [exact H1 | apply Q.le_min_l].
    + constructor; [|exact H2].
      eapply Qle_trans; [exact H1 | apply Q.le_min_r].
Qed.

Lemma fold_max_upper (t : list Q) (x : Q) :
  x <= fold_left Qmax t x /\ Forall (fun v => v <= fold_left Qmax t x) t.
Proof.
  revert x. induction t as [|y t IH]; intros x; simpl.
  - split; [apply Qle_refl | constructor].
  - destruct (IH (Qmax x y)) as [H1 H2]. split.
    + eapply Qle_trans; [apply Q.le_max_l | exact H1].
    + constructor; [|exact H2].
      eapply Qle_trans; [apply Q.le_max_r | exact H1].
Qed.

Lemma Qmin_pick (x y : Q) : Qmin x y = x \/ Qmin x y = y.
Proof.
  unfold Qmin, GenericMinMax.gmin. destruct (x ?= y); auto.
Qed.

Lemma Qmax_pick (x y : Q) : Qmax x y = x \/ Qmax x y = y.
Proof.
  unfold Qmax, GenericMinMax.gmax. destruct (x ?= y); auto.
Qed.

Lemma fold_min_In (t : list Q) (x : Q) : In (fold_left Qmin t x) (x :: t).
Proof.
  revert x. induction t as [|y t IH]; intros x; simpl; [now left|].
  destruct (IH (Qmin x y)) as [H|H].
  - rewrite <- H. destruct (Qmin_pick x y) as [E|E]; rewrite E; simpl; auto.
  - simpl. auto.
Qed.

Lemma fold_max_In (t : list Q) (x : Q) : In (fold_left Qmax t x) (x :: t).
Proof.
  revert x. induction t as [|y t IH]; intros x; simpl; [now left|].
  destruct (IH (Qmax x y)) as [H|H].
  - rewrite <- H. destruct (Qmax_pick x y) as [E|E]; rewrite E; simpl; auto.
  - simpl. auto.
Qed.

Lemma col_min_In (xs : list Q) (mn : Q) : col_min xs = Some mn -> In mn xs.
Proof.
  destruct xs as [|x t]; simpl; [discriminate|].
  intros [= <-]. apply fold_min_In.
Qed.

Lemma col_max_In (xs : list Q) (mx : Q) : col_max xs = Some mx -> In mx xs.
Proof.
  destruct xs as [|x t]; simpl; [discriminate|].
  intros [= <-]. apply fold_max_In.
Qed.

Lemma col_min_lower (xs : list Q) (mn : Q) :
  col_min xs = Some mn -> Forall (fun v => mn <= v) xs.
Proof.
  destruct xs as [|x t]; simpl; [discriminate|].
  intros [= <-]. destruct (fold_min_lower t x). now constructor.
Qed.

Lemma col_max_upper (xs : list Q) (mx : Q) :
  col_max xs = Some mx -> Forall (fun v => v <= mx) xs.
Proof.
  destruct xs as [|x t]; simpl; [discriminate|].
  intros [= <-]. destruct (fold_max_upper t x). now constructor.
Qed.

Lemma normalize_equal (a b v : Q) :
  a == b -> normalize (Some a) (Some b) v = 1 # 2.
Proof.
  intros H. unfold normalize.
  assert (E : Qeq_bool (b - a) 0 = true) by (apply Qeq_bool_iff; lra).
  now rewrite E.
Qed.

Lemma normalize_range (a b v : Q) :
  ~ a == b -> a <= v -> v <= b ->
  normalize (Some a) (Some b) v = (v - a) / (b - a) /\
  0 <= (v - a) / (b - a) <= 1.
Proof.
  intros Hne Hav Hvb. unfold normalize.
  destruct (Qeq_bool (b - a) 0) eqn:E.
  - apply Qeq_bool_iff in E. exfalso. apply Hne. lra.
  - assert (Hpos : 0 < b - a).
    { destruct (Qlt_le_dec 0 (b - a)) as [|Hle]; [assumption|].
      exfalso. apply Hne. lra. }
    split; [reflexivity|]. split.
    + apply Qle_shift_div_l; [assumption | lra].
    + apply Qle_shift_div_r; [assumption | lra].
Qed.

(** ** Coercion, ranking and the page guards *)

Section Ranking.

Context {lib : Library}.


Lemma coerce_Num (q : Q) : coerce (Num q) = q.
Proof. reflexivity. Qed.

Lemma value_coerce_traits (c : trait) (r : Row) :
  value c (coerce_traits r) = value c r.
Proof. destruct c; reflexivity. Qed.

Lemma get_coerce_traits (c : trait) (r : Row) :
  get c (coerce_traits r) = Num (value c r).
Proof. destruct c; reflexivity. Qed.

Lemma all_na_coerce_traits (r : Row) : all_na (coerce_traits r) = false.
Proof.
  unfold all_na. simpl. now rewrite !andb_false_r.
Qed.

Lemma get_data_rows (rows : list Row) :
  get_data (Some rows) = map coerce_traits rows.
Proof.
  unfold get_data, dropna_all.
  induction rows as [|r rows IH]; simpl; [reflexivity|].
  rewrite all_na_coerce_traits. simpl. now rewrite IH.
Qed.

(** C7: a trait cell that is missing or does not parse as a number is 0
    in the frame [get_data] returns, a numeric cell there, and 0 again
    after the conversions of pages 3 and 4; the columns the scorer reads
    and the matrix given to the projection and the neighbour search are
    the coerced columns of the sheet, row for row. *)
Theorem coercion_to_zero (rows : list Row) (raw : Row) (c : trait) :
  In raw rows -> to_numeric (get c raw) = None ->
  In (coerce_traits raw) (get_data (Some rows)) /\
  get c (coerce_traits raw) = Num 0 /\
  value c (coerce_traits raw) = 0 /\
  value c raw = 0 /\
  (forall r c', In r (get_data (Some rows)) ->
     get c' r = Num (value c' r)) /\
  (forall c', column c' (get_data (Some rows)) =
              map (fun r => fillna 0 (to_numeric (get c' r))) rows) /\
  fit_X (get_data (Some rows)) = map numeric_vec rows /\
  (forall x, to_numeric x = None -> coerce x = 0) /\
  (forall srows, get_data_subjects (Some srows) = map coerce_subject srows) /\
  (forall s, NFC (coerce_subject s) = Num (coerce (NFC s)) /\
             NCC (coerce_subject s) = Num (coerce (NCC s))) /\
  (forall brows, get_data_books (Some brows) = map coerce_book brows) /\
  (forall b, complexity (coerce_book b) = Num (coerce (complexity b))).
Proof.
  intros Hin Hnone.
  assert (Hv : value c raw = 0).
  { unfold value, coerce. now rewrite Hnone. }
  rewrite get_data_rows. repeat apply conj.
  - now apply in_map.
  - now rewrite get_coerce_traits, Hv.
  - now rewrite value_coerce_traits.
  - exact Hv.
  - intros r c' Hr. apply in_map_iff in Hr. destruct Hr as (r0 & <- & _).
    now rewrite get_coerce_traits, value_coerce_traits.
  - intros c'. unfold column. rewrite map_map.
    apply map_ext. intros r. apply value_coerce_traits.
  - unfold fit_X. rewrite map_map. apply map_ext. intros r.
    unfold numeric_vec. now rewrite !value_coerce_traits.
  - intros x Hx. unfold coerce. now rewrite Hx.
  - intros srows. unfold get_data_subjects.
    induction srows as [|s srows IH]; simpl; [reflexivity|].
    unfold subject_all_na at 1. simpl. rewrite !andb_false_r. simpl.
    now rewrite IH.
  - intros s. split; reflexivity.
  - intros brows. unfold get_data_books.
    induction brows as [|b brows IH]; simpl; [reflexivity|].
    unfold book_all_na at 1. simpl. rewrite !andb_false_r. simpl.
    now rewrite IH.
  - reflexivity.
Qed.

(** C1, for frames in range: on a frame with at least one row whose trait
    cells are numbers between -2^53 and 2^53, each trait column has a
    minimum and a maximum, both values of the column that bound all its
    values; when they are equal every normalised value is exactly 1/2,
    otherwise every normalised value is (value - min) / (max - min) and
    lies between 0 and 1. *)
Theorem normalization_spec (df : list Row) (c : trait) :
  in_range df = true ->
  (1 <= length df)%nat ->
  exists mn mx,
    col_min (column c df) = Some mn /\ col_max (column c df) = Some mx /\
    In mn (column c df) /\ In mx (column c df) /\
    Forall (fun v => mn <= v <= mx) (column c df) /\
    (mn == mx -> forall r, In r df -> norm df c r = 1 # 2) /\
    (~ mn == mx -> forall r, In r df ->
       norm df c r = (value c r - mn) / (mx - mn) /\
       0 <= norm df c r <= 1).
Proof.
  intros _ Hlen.
  destruct (col_min (column c df)) as [mn|] eqn:Emin.
  2: { destruct df; [simpl in Hlen; lia | discriminate]. }
  destruct (col_max (column c df)) as [mx|] eqn:Emax.
  2: { destruct df; [simpl in Hlen; lia | discriminate]. }
  exists mn, mx.
  split; [reflexivity|]. split; [reflexivity|].
  split; [now apply col_min_In|]. split; [now apply col_max_In|].
  split.
  { apply col_min_lower in Emin. apply col_max_upper in Emax.
    rewrite Forall_forall in *. intros v Hv. split; auto. }
  repeat split; trivial.
  - intros Heq r _. unfold norm. rewrite Emin, Emax.
    now apply normalize_equal.
  - unfold norm. rewrite Emin, Emax. apply normalize_range; trivial.
    + apply col_min_lower in Emin. rewrite Forall_forall in Emin.
      apply Emin. now apply in_map.
    + apply col_max_upper in Emax. rewrite Forall_forall in Emax.
      apply Emax. now apply in_map.
  - unfold norm. rewrite Emin, Emax.
    destruct (normalize_range (a:=mn) (b:=mx) (v:=value c r)) as [-> [? _]]; trivial.
    + apply col_min_lower in Emin. rewrite Forall_forall in Emin.
      apply Emin. now apply in_map.
    + apply col_max_upper in Emax. rewrite Forall_forall in Emax.
      apply Emax. now apply in_map.
  - unfold norm. rewrite Emin, Emax.
    destruct (normalize_range (a:=mn) (b:=mx) (v:=value c r)) as [-> [_ ?]]; trivial.
    + apply col_min_lower in Emin. rewrite Forall_forall in Emin.
      apply Emin. now apply in_map.
    + apply col_max_upper in Emax. rewrite Forall_forall in Emax.
      apply Emax. now apply in_map.
Qed.

(** C6, for whole numbers in range and slider weights: when the trait
    cells are whole numbers between -2^53 and 2^53 and the weights are
    slider values, doubling one weight doubles the summand of that weight
    and leaves the other three summands as they are, and with the four
    weights at 0 every score is 0. *)
Theorem My_Score_doubling (w : Weights) (df : list Row) (r : Row) (c : trait) :
  in_range df = true -> integer_traits df = true ->
  slider_weights w = true -> In r df ->
  contribution (scale_weight c 2 w) df c r == 2 * contribution w df c r /\
  (forall c', c' <> c ->
     contribution (scale_weight c 2 w) df c' r = contribution w df c' r) /\
  My_Score zero_weights df r == 0.
Proof.
  intros _ _ _ _. repeat split.
  - destruct c; unfold contribution; simpl; ring.
  - intros c' Hc. destruct c, c'; try congruence; reflexivity.
  - unfold My_Score, contribution; simpl; ring.
Qed.

Lemma tail_length (A : Type) (n : nat) (l : list A) :
  length (tail n l) = Nat.min n (length l).
Proof. unfold tail. rewrite length_skipn. lia. Qed.

(** C3, for frames in range: when the trait cells are numbers between
    -2^53 and 2^53, the ranking holds at most ten rows (ten, or all of
    them when fewer), in ascending order of score, each with the score of
    its own row, and no row left out scores higher than a row kept. *)
Theorem top_df_spec (w : Weights) (df : list Row) :
  in_range df = true ->
  (length (top_df w df) <= 10)%nat /\
  length (top_df w df) = Nat.min 10 (length df) /\
  StronglySorted (fun a b => snd a <= snd b) (top_df w df) /\
  Forall (fun e => In (fst e) df /\ snd e = My_Score w df (fst e)) (top_df w df) /\
  exists rest,
    Permutation (rest ++ top_df w df) (act_df w df) /\
    (forall a b, In a rest -> In b (top_df w df) -> snd a <= snd b).
Proof.
  intros _.
  set (sorted := sort_by (@snd Row Q) (act_df w df)).
  assert (Hs : StronglySorted (fun a b : Row * Q => snd a <= snd b) sorted)
    by apply sort_by_sorted.
  assert (Hp : Permutation sorted (act_df w df)) by apply sort_by_perm.
  assert (Hsplit : firstn (length sorted - 10) sorted ++ top_df w df = sorted).
  { unfold top_df, tail. fold sorted. apply firstn_skipn. }
  assert (Hlen : length (top_df w df) = Nat.min 10 (length df)).
  { unfold top_df. rewrite tail_length, sort_by_length.
    unfold act_df. now rewrite length_map. }
  split; [lia|]. split; [exact Hlen|]. split; [|split].
  - unfold top_df, tail. now apply StronglySorted_skipn.
  - apply Forall_forall. intros e He.
    assert (Hin : In e (act_df w df)).
    { eapply Permutation_in; [exact Hp|]. rewrite <- Hsplit.
      apply in_or_app. now right. }
    unfold act_df in Hin. apply in_map_iff in Hin.
    destruct Hin as (r & <- & Hr). simpl. now split.
  - exists (firstn (length sorted - 10) sorted). split.
    + now rewrite Hsplit.
    + rewrite <- Hsplit in Hs. apply StronglySorted_app_inv in Hs.
      apply Hs.
Qed.

(** C4: with fewer than three activities page 4 does not run the
    neighbour search and shows its warning; with no activity the ranking
    of page 3 shows its information line; a failed fetch yields the empty
    frame, so both pages take these branches and neither ends in the
    error branch. *)
Theorem insufficient_data_is_reported
    (search : list vec3 -> nat -> vec3 -> list nat)
    (w : Weights) (df : list Row) (selected : cell) :
  ((length df < 3)%nat -> page4_with search df selected = Warning) /\
  (length df = 0%nat -> page3_ranking w df = Info) /\
  get_data None = [] /\
  page4_with search (get_data None) selected = Warning /\
  page3_ranking w (get_data None) = Info.
Proof.
  repeat split.
  - intros H. unfold page4_with.
    destruct (Nat.leb_spec 3 (length df)); [lia | reflexivity].
  - intros H. unfold page3_ranking. now rewrite H.
Qed.

End Ranking.

(** ** The neighbour search *)

Lemma NoDup_firstn (A : Type) (n : nat) (l : list A) :
  NoDup l -> NoDup (firstn n l).
Proof.
  intros H. rewrite <- (firstn_skipn n l) in H.
  now apply NoDup_app_remove_r in H.
Qed.

Lemma In_firstn (A : Type) (n : nat) (l : list A) (x : A) :
  In x (firstn n l) -> In x l.
Proof.
  intros H. rewrite <- (firstn_skipn n l). apply in_or_app. now left.
Qed.

Lemma In_tl (A : Type) (l : list A) (x : A) : In x (tl l) -> In x l.
Proof. destruct l; simpl; auto. Qed.

(** An exhaustive search over any enumeration of the positions meets the
    contract of the library search. *)
Lemma search_in_order_contract (order : nat -> list nat) :
  (forall n, Permutation (order n) (seq 0 n)) ->
  KnnContract (search_in_order order).
Proof.
  intros Hord. constructor; unfold search_in_order.
  - intros X k q Hk.
    rewrite length_firstn, sort_by_length, (Permutation_length (Hord _)),
      length_seq. lia.
  - intros X k q i Hi. apply In_firstn in Hi.
    eapply Permutation_in in Hi; [|apply sort_by_perm].
    eapply Permutation_in in Hi; [|apply Hord].
    apply in_seq in Hi. lia.
  - intros X k q. apply NoDup_firstn.
    eapply Permutation_NoDup; [symmetry; apply sort_by_perm|].
    eapply Permutation_NoDup; [symmetry; apply Hord|].
    apply seq_NoDup.
  - intros X k q. apply StronglySorted_firstn.
    apply (sort_by_sorted (fun i => sqdist q (nth i X origin))).
  - intros X k q i j Hk Hi Hj Hnj.
    set (key := fun i => sqdist q (nth i X origin)) in *.
    set (l := sort_by key (order (length X))) in *.
    assert (Hs : StronglySorted (fun a b => key a <= key b) l)
      by apply sort_by_sorted.
    assert (Hjl : In j l).
    { eapply Permutation_in; [symmetry; apply sort_by_perm|].
      eapply Permutation_in; [symmetry; apply Hord|].
      apply in_seq. lia. }
    rewrite <- (firstn_skipn k l) in Hs, Hjl.
    apply StronglySorted_app_inv in Hs. destruct Hs as (_ & _ & Hs).
    apply in_app_or in Hjl. destruct Hjl as [Hjl|Hjl]; [contradiction|].
    now apply (Hs i j).
Qed.

Lemma kneighbors_contract : KnnContract kneighbors.
Proof. apply search_in_order_contract. reflexivity. Qed.

Lemma kneighbors_last_first_contract : KnnContract kneighbors_last_first.
Proof.
  apply search_in_order_contract. intros n. symmetry. apply Permutation_rev.
Qed.

(** The contract leaves the order of equal distances open: on [tie_df],
    whose second and third activities are equally far from the first, the
    two searches meet it and report the pair in opposite orders. *)
Lemma tie_order_not_fixed (lib : Library) :
  neighbor_list_with kneighbors tie_df (Str [65%N]) =
    Some [(1%nat, 1); (2%nat, 1)] /\
  neighbor_list_with kneighbors_last_first tie_df (Str [65%N]) =
    Some [(2%nat, 1); (1%nat, 1)].
Proof. split; reflexivity. Qed.

Lemma euclidean_monotone (q a b : vec3) :
  sqdist q a <= sqdist q b -> (euclidean q a <= euclidean q b)%R.
Proof.
  intros H. unfold euclidean. apply sqrt_le_1_alt. now apply Qle_Rle.
Qed.

Lemma snd_combine_map (A B : Type) (f : A -> B) (l : list A) :
  map snd (combine l (map f l)) = map f l.
Proof. induction l; simpl; congruence. Qed.

Lemma fst_combine_map (A B : Type) (f : A -> B) (l : list A) :
  map fst (combine l (map f l)) = l.
Proof. induction l; simpl; congruence. Qed.

Lemma map_tl (A B : Type) (f : A -> B) (l : list A) :
  map f (tl l) = tl (map f l).
Proof. destruct l; reflexivity. Qed.

Lemma StronglySorted_map (A B : Type) (R : B -> B -> Prop) (f : A -> B) (l : list A) :
  StronglySorted (fun a b => R (f a) (f b)) l -> StronglySorted R (map f l).
Proof.
  induction 1 as [|x l Hs IH Hall]; simpl; constructor; auto.
  apply Forall_map. exact Hall.
Qed.

Section Engine.

Context {lib : Library}.
Variable search : list vec3 -> nat -> vec3 -> list nat.


Lemma target_row_index (df : list Row) (selected : cell) :
  target_row df selected =
  match target_index df selected with
  | Some i => nth_error df i
  | None => None
  end.
Proof.
  unfold target_row. induction df as [|r df IH]; simpl; [reflexivity|].
  destruct (cell_eqb (r_name r) selected); simpl; [reflexivity|].
  rewrite IH. now destruct (target_index df selected).
Qed.

Lemma target_row_first (l1 l2 : list Row) (r : Row) (selected : cell) :
  cell_eqb (r_name r) selected = true ->
  (forall x, In x l1 -> cell_eqb (r_name x) selected = false) ->
  target_row (l1 ++ r :: l2) selected = Some r /\
  target_index (l1 ++ r :: l2) selected = Some (length l1).
Proof.
  intros Hr Hl1. unfold target_row.
  induction l1 as [|x l1 IH]; simpl.
  - now rewrite Hr.
  - rewrite (Hl1 x) by now left.
    destruct IH as [IH1 IH2]; [intros y Hy; apply Hl1; now right|].
    now rewrite IH1, IH2.
Qed.

Lemma neighbor_list_indices (df : list Row) (selected : cell) :
  option_map (map fst) (neighbor_list_with search df selected) =
  neighbor_indices_with search df selected.
Proof.
  unfold neighbor_list_with, neighbor_indices_with.
  destruct (target_row df selected); simpl; [|reflexivity].
  unfold sq_distances. now rewrite map_tl, fst_combine_map.
Qed.

Hypothesis contract : KnnContract search.

(** On three activities or more, with an anchor that is in the frame and
    marker sizes the figure accepts, the page shows a list; it has
    min(4, N) - 1 entries. *)
Lemma neighbor_indices_length (df : list Row) (selected : cell) (t : Row) :
  (3 <= length df)%nat -> markers_valid df = true ->
  target_row df selected = Some t ->
  exists l, neighbor_indices_with search df selected = Some l /\
            page4_with search df selected = Shown l /\
            length l = (Nat.min 4 (length df) - 1)%nat.
Proof.
  intros Hn Hm Ht. unfold page4_with, neighbor_indices_with.
  rewrite Ht, Hm. destruct (Nat.leb_spec 3 (length df)); [|lia].
  eexists. repeat split.
  pose proof (@knn_length search contract (fit_X df) (n_neighbors df)
                (target_vec t)) as Hl.
  unfold fit_X in *. rewrite length_map in Hl.
  unfold n_neighbors in *.
  destruct (search _ _ _) as [|i l]; cbn [length tl] in *; lia.
Qed.

(** The squared distances on the reported list are non-decreasing, and so
    are the Euclidean distances. *)
Lemma neighbor_list_sorted (df : list Row) (selected : cell)
    (t : Row) (nl : list (nat * Q)) :
  target_row df selected = Some t ->
  neighbor_list_with search df selected = Some nl ->
  Forall (fun e => snd e = sqdist (target_vec t) (nth (fst e) (fit_X df) origin)) nl /\
  StronglySorted Qle (map snd nl) /\
  StronglySorted Rle
    (map (fun e => euclidean (target_vec t) (nth (fst e) (fit_X df) origin)) nl).
Proof.
  intros Ht. unfold neighbor_list_with. rewrite Ht. intros [= <-].
  set (q := target_vec t). set (X := fit_X df).
  set (inds := search X (n_neighbors df) q).
  assert (Hs : StronglySorted
                 (fun i j => sqdist q (nth i X origin) <= sqdist q (nth j X origin))
                 inds) by apply (@knn_sorted search contract).
  assert (Hf : Forall (fun e : nat * Q => snd e = sqdist q (nth (fst e) X origin))
                      (combine inds (sq_distances X q inds))).
  { unfold sq_distances. clearbody inds. clear.
    induction inds; simpl; constructor; auto. }
  split; [|split].
  - apply Forall_forall. intros e He. apply In_tl in He.
    rewrite Forall_forall in Hf. now apply Hf.
  - rewrite map_tl. unfold sq_distances. rewrite snd_combine_map.
    apply StronglySorted_tl, StronglySorted_map. exact Hs.
  - rewrite map_tl. apply StronglySorted_tl.
    assert (E : map (fun e : nat * Q => euclidean q (nth (fst e) X origin))
                    (combine inds (sq_distances X q inds)) =
                map (fun i => euclidean q (nth i X origin)) inds).
    { unfold sq_distances. clearbody inds. clear.
      induction inds as [|i inds IH]; cbn [map combine fst];
        [reflexivity | now rewrite IH]. }
    rewrite E. apply StronglySorted_map.
    eapply StronglySorted_ind with (P := fun l => StronglySorted _ l);
      [constructor | | exact Hs].
    intros a l _ IH Hall. constructor; [exact IH|].
    eapply Forall_impl; [|exact Hall].
    intros b Hb. now apply euclidean_monotone.
Qed.

End Engine.

(** ** The anchor and the columns of the distance *)

Section Anchor.

Context {lib : Library}.
Variable search : list vec3 -> nat -> vec3 -> list nat.

Lemma same_metric_vec (r1 r2 : Row) :
  same_metric_columns r1 r2 -> numeric_vec r1 = numeric_vec r2.
Proof.
  intros (_ & Ha & Hp & Hf). unfold numeric_vec, value. simpl.
  now rewrite Ha, Hp, Hf.
Qed.

Lemma same_metric_fit_X (df1 df2 : list Row) :
  Forall2 same_metric_columns df1 df2 -> fit_X df1 = fit_X df2.
Proof.
  unfold fit_X. induction 1 as [|r1 r2 df1 df2 Hr _ IH]; cbn [map].
  - reflexivity.
  - f_equal; [now apply same_metric_vec | exact IH].
Qed.

Lemma same_metric_target (df1 df2 : list Row) (selected : cell) :
  Forall2 same_metric_columns df1 df2 ->
  option_map numeric_vec (target_row df1 selected) =
  option_map numeric_vec (target_row df2 selected).
Proof.
  unfold target_row. induction 1 as [|r1 r2 df1 df2 Hr _ IH]; cbn [filter].
  - reflexivity.
  - assert (Hn : r_name r1 = r_name r2) by apply Hr. rewrite Hn.
    destruct (cell_eqb (r_name r2) selected); cbn [hd_error option_map].
    + f_equal. now apply same_metric_vec.
    + exact IH.
Qed.

(** C9: two frames of the same names that agree on achievement, power and
    affiliation give the same reported positions with the same distances,
    whatever their flow scores (and their other columns) are. *)
Theorem neighbors_ignore_flow (df1 df2 : list Row) (selected : cell) :
  Forall2 same_metric_columns df1 df2 ->
  neighbor_list_with search df1 selected = neighbor_list_with search df2 selected /\
  neighbor_indices_with search df1 selected =
    neighbor_indices_with search df2 selected.
Proof.
  intros H.
  assert (HX := same_metric_fit_X H).
  assert (Ht := same_metric_target selected H).
  assert (Hlen : length df1 = length df2) by (eapply Forall2_length; eauto).
  assert (Hi : neighbor_indices_with search df1 selected =
               neighbor_indices_with search df2 selected).
  { unfold neighbor_indices_with, n_neighbors, target_vec.
    rewrite HX, Hlen.
    destruct (target_row df1 selected), (target_row df2 selected);
      cbn [option_map] in Ht; try discriminate; [|reflexivity].
    congruence. }
  repeat split.
  - unfold neighbor_list_with, n_neighbors, target_vec.
    rewrite HX, Hlen.
    destruct (target_row df1 selected), (target_row df2 selected);
      cbn [option_map] in Ht; try discriminate; [|reflexivity].
    congruence.
  - exact Hi.
Qed.

(** C10: the anchor is the first row whose name equals the chosen name;
    its trait vector is the query, and every row of the frame, the later
    rows of that name included, stays in the matrix that is searched. *)
Theorem anchor_is_first_match (l1 l2 : list Row) (r : Row) (selected : cell) :
  cell_eqb (r_name r) selected = true ->
  forallb (fun x => negb (cell_eqb (r_name x) selected)) l1 = true ->
  target_row (l1 ++ r :: l2) selected = Some r /\
  target_index (l1 ++ r :: l2) selected = Some (length l1) /\
  fit_X (l1 ++ r :: l2) = fit_X l1 ++ numeric_vec r :: fit_X l2 /\
  neighbor_indices_with search (l1 ++ r :: l2) selected =
    Some (tl (search (fit_X (l1 ++ r :: l2)) (n_neighbors (l1 ++ r :: l2))
                     (numeric_vec r))).
Proof.
  intros Hr Hl1.
  assert (Hfirst : forall x, In x l1 -> cell_eqb (r_name x) selected = false).
  { rewrite forallb_forall in Hl1. intros x Hx.
    apply negb_true_iff. now apply Hl1. }
  destruct (@target_row_first l1 l2 r selected Hr Hfirst) as [Ht Hi].
  repeat split; trivial.
  - unfold fit_X. now rewrite map_app.
  - unfold neighbor_indices_with. now rewrite Ht.
Qed.

Hypothesis contract : KnnContract search.

(** Whatever order the search gives to equal distances, one of the two
    twins of [twin_df] is listed among its own neighbours: both have the
    same query vector, so the search answers both alike, and the entry it
    puts second is reported for both. *)
Lemma twin_anchor_listed :
  exists selected i l,
    target_index twin_df selected = Some i /\
    neighbor_indices_with search twin_df selected = Some l /\
    In i l.
Proof.
  set (X := [(1, 1, 1); (1, 1, 1); (5, 5, 5)] : list vec3).
  set (q := (1, 1, 1) : vec3).
  assert (HA : neighbor_indices_with search twin_df (Str [65%N]) =
               Some (tl (search X 3 q))) by reflexivity.
  assert (HB : neighbor_indices_with search twin_df (Str [66%N]) =
               Some (tl (search X 3 q))) by reflexivity.
  pose proof (@knn_length search contract X 3%nat q) as Hlen.
  pose proof (@knn_range search contract X 3%nat q) as Hrange.
  pose proof (@knn_nodup search contract X 3%nat q) as Hnd.
  pose proof (@knn_sorted search contract X 3%nat q) as Hs.
  destruct (search X 3 q) as [|a [|b [|c [|d res]]]];
    try (simpl in Hlen; specialize (Hlen ltac:(lia)); discriminate).
  clear Hlen.
  assert (Ha : (a < 3)%nat) by (apply Hrange; simpl; auto).
  assert (Hb : (b < 3)%nat) by (apply Hrange; simpl; auto).
  assert (Hc : (c < 3)%nat) by (apply Hrange; simpl; auto).
  assert (Hab : a <> b /\ a <> c /\ b <> c).
  { inversion Hnd as [|? ? Hn1 Hnd1]; subst.
    inversion Hnd1 as [|? ? Hn2 _]; subst. simpl in Hn1, Hn2.
    repeat split; intros ->; tauto. }
  assert (Hord : sqdist q (nth a X origin) <= sqdist q (nth b X origin) /\
                 sqdist q (nth b X origin) <= sqdist q (nth c X origin)).
  { inversion Hs as [|? ? Hs1 Hall1]; subst.
    inversion Hs1 as [|? ? _ Hall2]; subst.
    inversion Hall1; subst. inversion Hall2; subst. now split. }
  destruct Hord as [H1 H2]. apply Qle_bool_iff in H1, H2.
  destruct a as [|[|[|a]]]; try lia;
    destruct b as [|[|[|b]]]; try lia;
    destruct c as [|[|[|c]]]; try lia;
    try (vm_compute in H1; discriminate);
    try (vm_compute in H2; discriminate).
  - exists (Str [65%N]), 1%nat, [1; 2]%nat.
    repeat split; [exact HA | simpl; auto].
  - exists (Str [66%N]), 0%nat, [0; 2]%nat.
    repeat split; [exact HB | simpl; auto].
Qed.

End Anchor.

(** With the reference search, on three activities or more, an anchor of
    the frame and marker sizes the figure accepts, page 4 shows
    min(4, N) - 1 positions. *)
Lemma reference_neighbors_length (lib : Library) (df : list Row)
    (selected : cell) (t : Row) :
  (3 <= length df)%nat -> markers_valid df = true ->
  target_row df selected = Some t ->
  exists l, page4 df selected = Shown l /\
            length l = (Nat.min 4 (length df) - 1)%nat.
Proof.
  intros Hn Hm Ht.
  destruct (neighbor_indices_length kneighbors_contract df selected Hn Hm Ht)
    as (l & _ & Hp & Hl).
  now exists l.
Qed.

(** C2: on [twin_df], three activities whose first two have the same
    traits, with the second one as anchor, the reference search returns
    the first activity in front, and dropping the front entry leaves the
    anchor itself (position 1) on the reported list. *)
Theorem anchor_listed_as_own_neighbor (lib : Library) :
  (3 <= length twin_df)%nat /\
  target_index twin_df (Str [65%N]) = Some 1%nat /\
  kneighbors (fit_X twin_df) (n_neighbors twin_df) (1, 1, 1) = [0; 1; 2]%nat /\
  neighbor_indices twin_df (Str [65%N]) = Some [1; 2]%nat /\
  page4 twin_df (Str [65%N]) = Shown [1; 2]%nat.
Proof.
  split; [simpl; lia|]. split; [reflexivity|]. split; [reflexivity|].
  split; reflexivity.
Qed.

(** ** The keyword table *)

Lemma pystr_eqb_eq (a b : pystr) : pystr_eqb a b = true <-> a = b.
Proof.
  revert b. induction a as [|x a IH]; intros [|y b]; simpl;
    try (split; [discriminate | discriminate]); [tauto|].
  rewrite andb_true_iff, N.eqb_eq, IH. split.
  - now intros [-> ->].
  - now intros [= -> ->].
Qed.

Lemma pystr_eqb_refl (a : pystr) : pystr_eqb a a = true.
Proof. now apply pystr_eqb_eq. Qed.

Lemma pystr_eqb_neq (a b : pystr) : pystr_eqb a b = false <-> a <> b.
Proof.
  rewrite <- pystr_eqb_eq. destruct (pystr_eqb a b); split; congruence.
Qed.

Lemma is_stop_word_In (w : pystr) : is_stop_word w = false -> ~ In w stop_words.
Proof.
  unfold is_stop_word. intros H Hin.
  assert (E : existsb (pystr_eqb w) stop_words = true).
  { apply existsb_exists. exists w. split; [exact Hin | apply pystr_eqb_refl]. }
  congruence.
Qed.

Lemma StronglySorted_snoc (A : Type) (R : A -> A -> Prop) (l : list A) (x : A) :
  StronglySorted R l -> Forall (fun a => R a x) l -> StronglySorted R (l ++ [x]).
Proof.
  induction 1 as [|y l Hs IH Hall]; intros Hx; simpl.
  - repeat constructor.
  - inversion Hx; subst. constructor; [now apply IH|].
    apply Forall_app. split; [exact Hall | now constructor].
Qed.

(** *** First occurrences *)

Lemma first_index_app (w : pystr) (ws l : list pystr) :
  In w ws -> first_index w (ws ++ l) = first_index w ws.
Proof.
  induction ws as [|x ws IH]; simpl; [tauto|].
  intros Hin. destruct (pystr_eqb x w) eqn:E; [reflexivity|].
  f_equal. apply IH. destruct Hin as [->|]; [|assumption].
  rewrite pystr_eqb_refl in E. discriminate.
Qed.

Lemma first_index_lt (w : pystr) (ws : list pystr) :
  In w ws -> (first_index w ws < length ws)%nat.
Proof.
  induction ws as [|x ws IH]; simpl; [tauto|].
  intros Hin. destruct (pystr_eqb x w) eqn:E; [lia|].
  destruct Hin as [->|Hin]; [rewrite pystr_eqb_refl in E; discriminate|].
  specialize (IH Hin). lia.
Qed.

Lemma first_index_new (w : pystr) (ws : list pystr) :
  ~ In w ws -> first_index w (ws ++ [w]) = length ws.
Proof.
  induction ws as [|x ws IH]; simpl; intros Hn.
  - now rewrite pystr_eqb_refl.
  - destruct (pystr_eqb x w) eqn:E.
    + apply pystr_eqb_eq in E. tauto.
    + f_equal. apply IH. tauto.
Qed.

(** *** The counter *)

Lemma Counter_snoc (ws : list pystr) (w : pystr) :
  Counter (ws ++ [w]) = counter_add w (Counter ws).
Proof. unfold Counter. now rewrite fold_left_app. Qed.

Lemma counter_add_keys (w : pystr) (c : list (pystr * nat)) :
  map fst (counter_add w c) =
  if existsb (fun k => pystr_eqb k w) (map fst c) then map fst c
  else map fst c ++ [w].
Proof.
  induction c as [|[k n] c IH]; simpl; [reflexivity|].
  destruct (pystr_eqb k w); simpl; [reflexivity|].
  rewrite IH. now destruct (existsb _ (map fst c)).
Qed.

Lemma counter_get_add (w t : pystr) (c : list (pystr * nat)) :
  counter_get (counter_add w c) t =
  if pystr_eqb w t then S (counter_get c w) else counter_get c t.
Proof.
  induction c as [|[k n] c IH]; simpl.
  - destruct (pystr_eqb w t); reflexivity.
  - destruct (pystr_eqb k w) eqn:Ekw; simpl.
    + apply pystr_eqb_eq in Ekw. subst k.
      destruct (pystr_eqb w t); reflexivity.
    + rewrite IH. destruct (pystr_eqb k t) eqn:Ekt; [|reflexivity].
      apply pystr_eqb_eq in Ekt. subst k.
      destruct (pystr_eqb w t) eqn:Ewt; [|reflexivity].
      apply pystr_eqb_eq in Ewt. subst w.
      rewrite pystr_eqb_refl in Ekw. discriminate.
Qed.

Lemma counter_get_In (c : list (pystr * nat)) (t : pystr) (n : nat) :
  NoDup (map fst c) -> In (t, n) c -> counter_get c t = n.
Proof.
  induction c as [|[k m] c IH]; simpl; [tauto|].
  intros Hnd [[= -> ->]|Hin].
  - now rewrite pystr_eqb_refl.
  - inversion Hnd as [|? ? Hk Hnd']; subst.
    destruct (pystr_eqb k t) eqn:E.
    + apply pystr_eqb_eq in E. subst k. exfalso. apply Hk.
      apply in_map_iff. now exists (t, n).
    + now apply IH.
Qed.

Lemma existsb_key (w : pystr) (ks : list pystr) :
  existsb (fun k => pystr_eqb k w) ks = true <-> In w ks.
Proof.
  rewrite existsb_exists. split.
  - intros (k & Hk & E). apply pystr_eqb_eq in E. now subst.
  - intros H. exists w. split; [exact H | apply pystr_eqb_refl].
Qed.

Lemma Counter_keys (ws : list pystr) :
  NoDup (map fst (Counter ws)) /\
  (forall t, In t (map fst (Counter ws)) <-> In t ws) /\
  StronglySorted (fun a b => (first_index a ws < first_index b ws)%nat)
                 (map fst (Counter ws)).
Proof.
  induction ws as [|w ws (Hnd & Hin & Hs)] using rev_ind.
  - repeat split; simpl; try tauto; constructor.
  - rewrite Counter_snoc, counter_add_keys.
    destruct (existsb _ (map fst (Counter ws))) eqn:E.
    + apply existsb_key in E. repeat split.
      * exact Hnd.
      * intros Ht. apply in_or_app. left. now apply Hin.
      * intros Ht. apply in_app_or in Ht. destruct Ht as [Ht|[<-|[]]];
          [now apply Hin | exact E].
      * clear E. revert Hs. generalize (fun t => proj1 (Hin t)).
        generalize (map fst (Counter ws)). intros ks Hks Hs.
        induction Hs as [|k ks Hs IH Hall]; constructor.
        -- apply IH. intros t Ht. apply Hks. now right.
        -- rewrite Forall_forall in *. intros b Hb.
           rewrite !first_index_app;
             [now apply Hall | apply Hks; now right | apply Hks; now left].
    + assert (Hw : ~ In w ws).
      { intros Hw. apply Hin, existsb_key in Hw. congruence. }
      repeat split.
      * apply NoDup_app; [exact Hnd | repeat constructor; simpl; tauto |].
        intros t Ht [<-|[]]. apply Hw. now apply Hin.
      * intros Ht. apply in_app_or in Ht. apply in_or_app.
        destruct Ht as [Ht|Ht]; [left; now apply Hin | now right].
      * intros Ht. apply in_app_or in Ht. apply in_or_app.
        destruct Ht as [Ht|Ht]; [left; now apply Hin | now right].
      * apply StronglySorted_snoc.
        -- clear E. revert Hs. generalize (fun t => proj1 (Hin t)).
           generalize (map fst (Counter ws)). intros ks Hks Hs.
           induction Hs as [|k ks Hs IH Hall]; constructor.
           ++ apply IH. intros t Ht. apply Hks. now right.
           ++ rewrite Forall_forall in *. intros b Hb.
              rewrite !first_index_app;
                [now apply Hall | apply Hks; now right | apply Hks; now left].
        -- apply Forall_forall. intros t Ht. apply Hin in Ht.
           rewrite first_index_app, first_index_new by assumption.
           now apply first_index_lt.
Qed.

Lemma Counter_get (ws : list pystr) (t : pystr) :
  counter_get (Counter ws) t = count_occ pystr_eq_dec ws t.
Proof.
  induction ws as [|w ws IH] using rev_ind; [reflexivity|].
  rewrite Counter_snoc, counter_get_add, count_occ_app. simpl.
  destruct (pystr_eqb w t) eqn:E.
  - apply pystr_eqb_eq in E. subst w.
    destruct (pystr_eq_dec t t); [|congruence]. rewrite IH. lia.
  - apply pystr_eqb_neq in E.
    destruct (pystr_eq_dec w t); [congruence|]. rewrite IH. lia.
Qed.

Lemma Counter_In (ws : list pystr) (t : pystr) (n : nat) :
  In (t, n) (Counter ws) ->
  In t ws /\ n = count_occ pystr_eq_dec ws t /\ (1 <= n)%nat.
Proof.
  intros H. destruct (Counter_keys ws) as (Hnd & Hin & _).
  assert (Ht : In t ws).
  { apply Hin. apply in_map_iff. now exists (t, n). }
  assert (Hn : n = count_occ pystr_eq_dec ws t).
  { rewrite <- Counter_get. symmetry. now apply counter_get_In. }
  repeat split; trivial.
  rewrite Hn. now apply count_occ_In.
Qed.

(** *** The descending sort keeps the order of equal counts *)

Section SortDesc.

Variable A : Type.
Variable rk : A -> nat.

Lemma insert_desc_perm (x : A * nat) (l : list (A * nat)) :
  Permutation (insert_desc x l) (x :: l).
Proof.
  induction l as [|y l IH]; simpl; [reflexivity|].
  destruct (snd y <=? snd x)%nat; [reflexivity|].
  rewrite IH. apply perm_swap.
Qed.

Lemma sort_desc_perm (l : list (A * nat)) : Permutation (sort_desc l) l.
Proof.
  induction l as [|x l IH]; simpl; [reflexivity|].
  rewrite insert_desc_perm. now constructor.
Qed.

Lemma ranked_before_count (a b : A * nat) :
  ranked_before rk a b -> (snd b <= snd a)%nat.
Proof. unfold ranked_before. lia. Qed.

Lemma insert_desc_sorted (x : A * nat) (l : list (A * nat)) :
  Forall (fun z => (rk (fst x) < rk (fst z))%nat) l ->
  StronglySorted (ranked_before rk) l ->
  StronglySorted (ranked_before rk) (insert_desc x l).
Proof.
  intros Hrk Hs. induction Hs as [|y l Hs IH Hall]; simpl.
  - repeat constructor.
  - inversion Hrk as [|? ? Hxy Hrk']; subst.
    destruct (Nat.leb_spec (snd y) (snd x)) as [Hle|Hlt].
    + constructor; [constructor; assumption|].
      assert (Hz : Forall (fun z => (snd z <= snd x)%nat) (y :: l)).
      { constructor; [exact Hle|].
        eapply Forall_impl; [|exact Hall].
        intros z Hz. apply ranked_before_count in Hz. lia. }
      rewrite Forall_forall in Hz, Hrk. apply Forall_forall.
      intros z Hin. specialize (Hz z Hin). specialize (Hrk z Hin).
      unfold ranked_before. lia.
    + constructor; [now apply IH|].
      eapply Permutation_Forall; [symmetry; apply insert_desc_perm|].
      constructor; [|exact Hall].
      unfold ranked_before. lia.
Qed.

Lemma sort_desc_sorted (l : list (A * nat)) :
  StronglySorted (fun a b => (rk (fst a) < rk (fst b))%nat) l ->
  StronglySorted (ranked_before rk) (sort_desc l).
Proof.
  induction 1 as [|x l Hs IH Hall]; simpl; [constructor|].
  apply insert_desc_sorted; [|exact IH].
  eapply Permutation_Forall; [symmetry; apply sort_desc_perm | exact Hall].
Qed.

End SortDesc.

Lemma StronglySorted_map_inv (A B : Type) (R : B -> B -> Prop) (f : A -> B)
    (l : list A) :
  StronglySorted R (map f l) -> StronglySorted (fun a b => R (f a) (f b)) l.
Proof.
  induction l as [|x l IH]; simpl; intros H; [constructor|].
  inversion H as [|? ? Hs Hall]; subst.
  constructor; [now apply IH|].
  rewrite Forall_map in Hall. exact Hall.
Qed.

Section Keywords.

Context {lib : Library}.

Lemma words_keep (all_text w : pystr) :
  In w (words all_text) ->
  (2 <= length w)%nat /\ ~ In w stop_words.
Proof.
  unfold words. intros H. apply filter_In in H. destruct H as [_ H].
  unfold keep_word in H. apply andb_true_iff in H. destruct H as [Hlen Hstop].
  apply Nat.ltb_lt in Hlen. apply negb_true_iff in Hstop.
  split; [lia | now apply is_stop_word_In].
Qed.

Lemma word_counts_sorted (all_text : pystr) :
  StronglySorted
    (ranked_before (fun t => first_index t (words all_text)))
    (word_counts all_text).
Proof.
  unfold word_counts, most_common. apply StronglySorted_firstn.
  apply sort_desc_sorted.
  apply (@StronglySorted_map_inv _ _
           (fun a b => (first_index a (words all_text) <
                        first_index b (words all_text))%nat) fst).
  apply Counter_keys.
Qed.

(** C5: the keyword table has at most 30 entries; every token has at
    least two characters, is no stop word ("nan" and "None" are stop
    words), is one of the kept words and carries the number of its
    occurrences; counts never increase along the table, and of two tokens
    with the same count the one met first in the text comes first. *)
Theorem word_counts_spec (all_text : pystr) :
  (length (word_counts all_text) <= 30)%nat /\
  Forall (fun e =>
            (2 <= length (fst e))%nat /\ ~ In (fst e) stop_words /\
            In (fst e) (words all_text) /\
            snd e = count_occ pystr_eq_dec (words all_text) (fst e) /\
            (1 <= snd e)%nat)
         (word_counts all_text) /\
  In str_nan stop_words /\ In str_None stop_words /\
  (forall i j t1 c1 t2 c2, (i < j)%nat ->
     nth_error (word_counts all_text) i = Some (t1, c1) ->
     nth_error (word_counts all_text) j = Some (t2, c2) ->
     (c2 <= c1)%nat /\
     (c1 = c2 ->
      (first_index t1 (words all_text) < first_index t2 (words all_text))%nat)).
Proof.
  split; [|split; [|split; [|split]]].
  - unfold word_counts, most_common. apply firstn_le_length.
  - apply Forall_forall. intros [t c] He. simpl.
    unfold word_counts, most_common in He. apply In_firstn in He.
    eapply Permutation_in in He; [|apply sort_desc_perm].
    apply Counter_In in He. destruct He as (Ht & Hc & Hpos).
    destruct (words_keep _ _ Ht) as [Hlen Hstop].
    repeat split; assumption.
  - unfold stop_words, str_nan. simpl. tauto.
  - unfold stop_words, str_None. simpl. tauto.
  - intros i j t1 c1 t2 c2 Hij Hi Hj.
    pose proof (StronglySorted_nth_error (word_counts_sorted all_text)
                  Hij Hi Hj) as H.
    unfold ranked_before in H. simpl in H. lia.
Qed.

(** The treemap of the keyword section shows [word_counts] of the joined
    texts, and only when that table is not empty. *)
Lemma page3_keywords_shown (texts : list pystr) (wc : list (pystr * nat)) :
  page3_keywords texts = Shown wc ->
  wc = word_counts (join_space texts) /\ wc <> [].
Proof.
  unfold page3_keywords.
  destruct (strip_nonempty (join_space texts)); [|discriminate].
  destruct (word_counts (join_space texts)) as [|e l]; [discriminate|].
  intros [= <-]. split; [reflexivity | discriminate].
Qed.

End Keywords.

(** ** The samples *)

Example spread_normalised :
  map (fun r => Qred (norm (lib:=sample_library) spread_df Ach r)) spread_df =
  [0; 1 # 2; 1].
Proof. reflexivity. Qed.

Example single_normalised :
  norm (lib:=sample_library) [activity [97%N] 7 2 3 40] Ach
       (activity [97%N] 7 2 3 40) = 1 # 2.
Proof. reflexivity. Qed.

Example sample_keywords :
  word_counts (lib:=sample_library) sample_text =
  [ ([51339; 51008]%N, 1%nat);
    ([44221; 54744; 51060; 50632; 45796]%N, 1%nat);
    ([44221; 54744]%N, 1%nat) ].
Proof. reflexivity. Qed.

Example ragged_sheet_coerced :
  map (fun r => (get Ach r, get Pow r, get Aff r, get Flw r))
      (get_data (lib:=sample_library) (Some ragged_sheet)) =
  [ (Num 0, Num 0, Num 7, Num 40) ].
Proof. reflexivity. Qed.

Example homonym_neighbours :
  neighbor_indices (lib:=sample_library) homonym_df (Str [65%N]) =
  Some [2; 3; 0]%nat.
Proof. reflexivity. Qed.

Lemma normalization_spec_witness :
  exists mn mx,
    col_min (column (lib:=sample_library) Ach spread_df) = Some mn /\
    col_max (column (lib:=sample_library) Ach spread_df) = Some mx /\
    In mn (column (lib:=sample_library) Ach spread_df) /\
    In mx (column (lib:=sample_library) Ach spread_df) /\
    Forall (fun v => mn <= v <= mx) (column (lib:=sample_library) Ach spread_df) /\
    (mn == mx -> forall r, In r spread_df ->
       norm (lib:=sample_library) spread_df Ach r = 1 # 2) /\
    (~ mn == mx -> forall r, In r spread_df ->
       norm (lib:=sample_library) spread_df Ach r =
         (value (lib:=sample_library) Ach r - mn) / (mx - mn) /\
       0 <= norm (lib:=sample_library) spread_df Ach r <= 1).
Proof.
  apply (@normalization_spec sample_library spread_df Ach).
  - reflexivity.
  - simpl. lia.
Defined.

Lemma top_df_spec_witness :
  (length (top_df (lib:=sample_library) default_weights spread_df) <= 10)%nat.
Proof.
  apply (@top_df_spec sample_library default_weights spread_df).
  reflexivity.
Defined.

Lemma insufficient_data_is_reported_witness :
  page4 (lib:=sample_library) [] NA = Warning /\
  page3_ranking (lib:=sample_library) default_weights [] = Info.
Proof.
  destruct (@insufficient_data_is_reported sample_library kneighbors
              default_weights [] NA) as (H4 & H3 & _).
  split; [apply H4; simpl; lia | apply H3; reflexivity].
Defined.

Lemma word_counts_spec_witness :
  (length (word_counts (lib:=sample_library) sample_text) <= 30)%nat.
Proof.
  apply (@word_counts_spec sample_library sample_text).
Defined.

Lemma My_Score_doubling_witness :
  contribution (lib:=sample_library) (scale_weight Ach 2 default_weights)
               spread_df Ach (activity [98%N] 5 3 4 50) ==
  2 * contribution (lib:=sample_library) default_weights
                   spread_df Ach (activity [98%N] 5 3 4 50).
Proof.
  apply (@My_Score_doubling sample_library default_weights spread_df
           (activity [98%N] 5 3 4 50) Ach).
  - reflexivity.
  - reflexivity.
  - reflexivity.
  - simpl. auto.
Defined.

Lemma coercion_to_zero_witness :
  get Ach (coerce_traits (lib:=sample_library)
             (mkRow (Str [97%N]) NA NA NA (Str [120%N]) (Str [55%N]) (Num 40) NA)) =
  Num 0.
Proof.
  destruct (@coercion_to_zero sample_library ragged_sheet
              (mkRow (Str [97%N]) NA NA NA (Str [120%N]) (Str [55%N]) (Num 40) NA)
              Ach) as (_ & H & _).
  - simpl. left. reflexivity.
  - reflexivity.
  - exact H.
Defined.

Lemma neighbors_ignore_flow_witness :
  neighbor_list (lib:=sample_library) twin_df (Str [67%N]) =
  neighbor_list (lib:=sample_library) twin_df_other_flow (Str [67%N]).
Proof.
  apply (@neighbors_ignore_flow sample_library kneighbors
           twin_df twin_df_other_flow (Str [67%N])).
  repeat constructor.
Defined.

Lemma anchor_is_first_match_witness :
  target_row homonym_df (Str [65%N]) = Some (activity [65%N] 1 1 1 20) /\
  target_index homonym_df (Str [65%N]) = Some 1%nat.
Proof.
  destruct (@anchor_is_first_match sample_library kneighbors
              [activity [67%N] 9 9 9 10]
              [activity [65%N] 2 1 1 30; activity [68%N] 4 4 4 40]
              (activity [65%N] 1 1 1 20) (Str [65%N]))
    as (Ht & Hi & _); [reflexivity | reflexivity |].
  split; [exact Ht | exact Hi].
Defined.

(** * Further properties of the ranking *)

Section RankingMore.

Context {lib : Library}.

Lemma col_min_le_max (xs : list Q) (mn mx : Q) :
  col_min xs = Some mn -> col_max xs = Some mx -> mn <= mx.
Proof.
  intros Hmn Hmx. destruct xs as [|x t]; [discriminate|].
  apply col_min_lower in Hmn. apply col_max_upper in Hmx.
  inversion Hmn; subst. inversion Hmx; subst.
  eapply Qle_trans; eauto.
Qed.

Lemma normalize_monotone (mn mx : option Q) (v1 v2 : Q) :
  (forall a b, mn = Some a -> mx = Some b -> a <= b) ->
  v1 <= v2 -> normalize mn mx v1 <= normalize mn mx v2.
Proof.
  intros Hle Hv. unfold normalize.
  destruct mn as [a|]; [|apply Qle_refl].
  destruct mx as [b|]; [|apply Qle_refl].
  specialize (Hle a b eq_refl eq_refl).
  destruct (Qeq_bool (b - a) 0) eqn:E; [apply Qle_refl|].
  assert (Hpos : 0 < b - a).
  { destruct (Qlt_le_dec 0 (b - a)) as [|Hneg]; [assumption|].
    assert (Hz : b - a == 0) by lra.
    apply Qeq_bool_iff in Hz. congruence. }
  unfold Qdiv. apply Qmult_le_compat_r; [lra|].
  apply Qlt_le_weak, Qinv_lt_0_compat. exact Hpos.
Qed.

Lemma norm_monotone (df : list Row) (c : trait) (r1 r2 : Row) :
  value c r1 <= value c r2 -> norm df c r1 <= norm df c r2.
Proof.
  intros H. unfold norm. apply normalize_monotone; [|exact H].
  intros a b Ha Hb. eapply col_min_le_max; eauto.
Qed.




(** On a frame in range, with weights that are not negative, a row of the
    frame that is at least as high as another on each of the four traits
    scores at least as high. *)
Theorem My_Score_monotone (w : Weights) (df : list Row) (r1 r2 : Row) :
  in_range df = true -> In r1 df -> In r2 df ->
  0 <= w_ach w -> 0 <= w_pow w -> 0 <= w_aff w -> 0 <= w_flow w ->
  (forall c, value c r1 <= value c r2) ->
  My_Score w df r1 <= My_Score w df r2.
Proof.
  intros _ _ _ Ha Hp Hf Hl Hv. unfold My_Score, contribution.
  assert (H : forall c, 0 <= weight w c ->
                        norm df c r1 * weight w c <= norm df c r2 * weight w c).
  { intros c Hc. apply Qmult_le_compat_r; [|exact Hc].
    apply norm_monotone, Hv. }
  pose proof (H Ach Ha). pose proof (H Pow Hp).
  pose proof (H Aff Hf). pose proof (H Flw Hl).
  simpl in *. lra.
Qed.

(** On a frame in range, when a trait column is not constant, some row of
    the frame has the normalised value 0 and some row the normalised
    value 1. *)
Theorem norm_extremes_attained (df : list Row) (c : trait) (mn mx : Q) :
  in_range df = true ->
  col_min (column c df) = Some mn -> col_max (column c df) = Some mx ->
  ~ mn == mx ->
  exists r0 r1, In r0 df /\ In r1 df /\
                value c r0 = mn /\ value c r1 = mx /\
                norm df c r0 == 0 /\ norm df c r1 == 1.
Proof.
  intros _ Emin Emax Hne.
  assert (Hle : mn <= mx) by (eapply col_min_le_max; eauto).
  destruct (proj1 (in_map_iff _ _ _) (@col_min_In _ _ Emin)) as (r0 & Hv0 & Hr0).
  destruct (proj1 (in_map_iff _ _ _) (@col_max_In _ _ Emax)) as (r1 & Hv1 & Hr1).
  exists r0, r1. repeat apply conj; trivial.
  - unfold norm. rewrite Emin, Emax, Hv0.
    destruct (@normalize_range mn mx mn Hne) as [-> _]; [lra | lra |].
    field. lra.
  - unfold norm. rewrite Emin, Emax, Hv1.
    destruct (@normalize_range mn mx mx Hne) as [-> _]; [lra | lra |].
    field. lra.
Qed.

Lemma skipn_snoc (A : Type) (n : nat) (l : list A) (x : A) :
  (n <= length l)%nat -> skipn n (l ++ [x]) = skipn n l ++ [x].
Proof.
  intros H. rewrite skipn_app.
  replace (n - length l)%nat with 0%nat by lia. reflexivity.
Qed.

(** On a frame in range that is not empty the ranking is not empty, and
    its last row, the one drawn on top of the bar chart, has the highest
    score of the whole frame. *)
Theorem top_df_last_is_best (w : Weights) (df : list Row) :
  in_range df = true ->
  (1 <= length df)%nat ->
  exists front best,
    top_df w df = front ++ [best] /\
    In (fst best) df /\ snd best = My_Score w df (fst best) /\
    forall r, In r df -> My_Score w df r <= snd best.
Proof.
  intros _ Hlen.
  set (sorted := sort_by (@snd Row Q) (act_df w df)).
  assert (Hp : Permutation sorted (act_df w df)) by apply sort_by_perm.
  assert (Hs : StronglySorted (fun a b : Row * Q => snd a <= snd b) sorted)
    by apply sort_by_sorted.
  assert (Hl : length sorted = length df).
  { unfold sorted. rewrite sort_by_length. unfold act_df. apply length_map. }
  destruct (exists_last (l:=sorted)) as (init & best & Hsplit).
  { intros E. rewrite E in Hl. simpl in Hl. lia. }
  assert (Hli : S (length init) = length df).
  { rewrite <- Hl, Hsplit, length_app. simpl. lia. }
  exists (skipn (length sorted - 10) init), best.
  assert (Hbest : In best (act_df w df)).
  { eapply Permutation_in; [exact Hp|]. rewrite Hsplit.
    apply in_or_app. right. now left. }
  unfold act_df in Hbest. apply in_map_iff in Hbest.
  destruct Hbest as (rb & <- & Hrb). simpl.
  repeat apply conj; trivial.
  - unfold top_df, tail. fold sorted. rewrite Hsplit at 2.
    apply skipn_snoc. lia.
  - intros r Hr.
    assert (Hin : In (r, My_Score w df r) sorted).
    { eapply Permutation_in; [symmetry; exact Hp|].
      unfold act_df. apply in_map_iff. now exists r. }
    rewrite Hsplit in Hin, Hs. apply StronglySorted_app_inv in Hs.
    destruct Hs as (_ & _ & Hcross).
    apply in_app_or in Hin. destruct Hin as [Hin|[E|[]]].
    + apply (Hcross (r, My_Score w df r) (rb, My_Score w df rb) Hin).
      now left.
    + injection E as E _. subst r. apply Qle_refl.
Qed.

End RankingMore.

(** * Further properties of the keyword table *)

Section KeywordsMore.

Context {lib : Library}.

Lemma findall_w_runs (s cur : pystr) :
  Forall (fun ch => word_char ch = true) cur ->
  Forall (fun w => w <> [] /\ Forall (fun ch => word_char ch = true) w)
         (findall_w cur s) /\
  concat (findall_w cur s) = rev cur ++ filter word_char s.
Proof.
  revert cur. induction s as [|ch s IH]; intros cur Hcur; simpl.
  - destruct cur as [|c cur]; simpl.
    + split; [constructor | reflexivity].
    + split.
      * constructor; [|constructor]. split.
        -- intros E. apply (f_equal (@length N)) in E.
           rewrite length_app in E. simpl in E. lia.
        -- apply (Forall_rev Hcur).
      * now rewrite !app_nil_r.
  - destruct (word_char ch) eqn:Ech.
    + destruct (IH (ch :: cur)) as [H1 H2]; [now constructor|].
      split; [exact H1|]. rewrite H2. simpl. now rewrite <- app_assoc.
    + destruct (IH []) as [H1 H2]; [constructor|].
      destruct cur as [|c cur].
      * split; [exact H1 | rewrite H2; reflexivity].
      * split.
        -- constructor; [|exact H1]. split.
           ++ intros E. apply (f_equal (@length N)) in E.
              simpl in E. rewrite length_app in E. simpl in E. lia.
           ++ apply (Forall_rev Hcur).
        -- simpl concat. rewrite H2. reflexivity.
Qed.

(** Every token of [re.findall] is a non-empty run of word characters,
    and the tokens laid end to end are the word characters of the text in
    their order: no character is lost, added or moved. *)
Theorem findall_w_spec (s : pystr) :
  Forall (fun w => w <> [] /\ Forall (fun ch => word_char ch = true) w)
         (findall_w [] s) /\
  concat (findall_w [] s) = filter word_char s.
Proof. apply (findall_w_runs s). constructor. Qed.

Lemma findall_w_break (s1 s2 cur : pystr) (ch : N) :
  word_char ch = false ->
  findall_w cur (s1 ++ ch :: s2) = findall_w cur s1 ++ findall_w [] s2.
Proof.
  intros Hch. revert cur. induction s1 as [|x s1 IH]; intros cur; simpl.
  - rewrite Hch. now destruct cur.
  - destruct (word_char x).
    + apply IH.
    + destruct cur; simpl; now rewrite IH.
Qed.

(** When the space is no word character, the tokens of the pooled text
    are the tokens of the single texts one after the other: joining never
    glues the last word of a memo to the first word of the next. *)
Theorem findall_w_join (texts : list pystr) :
  word_char 32%N = false ->
  findall_w [] (join_space texts) = flat_map (findall_w []) texts.
Proof.
  intros Hsp. induction texts as [|t rest IH]; [reflexivity|].
  destruct rest as [|t' rest].
  - simpl. now rewrite app_nil_r.
  - change (join_space (t :: t' :: rest))
      with (t ++ 32%N :: join_space (t' :: rest)).
    rewrite findall_w_break by exact Hsp. rewrite IH. reflexivity.
Qed.

Lemma Counter_complete (ws : list pystr) (t : pystr) :
  In t ws -> In (t, count_occ pystr_eq_dec ws t) (Counter ws).
Proof.
  intros Ht. destruct (Counter_keys ws) as (_ & Hin & _).
  apply Hin in Ht. apply in_map_iff in Ht.
  destruct Ht as ([t' n] & E & Hn). simpl in E. subst t'.
  destruct (Counter_In _ _ _ Hn) as (_ & -> & _). exact Hn.
Qed.

Lemma counter_add_total (w : pystr) (c : list (pystr * nat)) :
  list_sum (map snd (counter_add w c)) = S (list_sum (map snd c)).
Proof.
  induction c as [|[k n] c IH]; simpl; [reflexivity|].
  destruct (pystr_eqb k w); simpl; [reflexivity|]. rewrite IH. lia.
Qed.

Lemma Counter_total (ws : list pystr) :
  list_sum (map snd (Counter ws)) = length ws.
Proof.
  induction ws as [|w ws IH] using rev_ind; [reflexivity|].
  rewrite Counter_snoc, counter_add_total, IH, length_app. simpl. lia.
Qed.

Lemma list_sum_perm (l1 l2 : list nat) :
  Permutation l1 l2 -> list_sum l1 = list_sum l2.
Proof. induction 1; simpl; lia. Qed.

(** No token stands twice on the keyword table. *)
Theorem word_counts_distinct (all_text : pystr) :
  NoDup (map fst (word_counts all_text)).
Proof.
  unfold word_counts, most_common. rewrite <- firstn_map.
  apply NoDup_firstn.
  eapply Permutation_NoDup.
  - symmetry. apply Permutation_map. apply sort_desc_perm.
  - apply Counter_keys.
Qed.

(** The table is the top of the frequency list: a kept word that is not
    on it occurs no more often than any token that is, and when the table
    has fewer than 30 entries every kept word is on it. *)
Theorem word_counts_top (all_text t : pystr) :
  In t (words all_text) ->
  In (t, count_occ pystr_eq_dec (words all_text) t) (word_counts all_text) \/
  ((30 <= length (word_counts all_text))%nat /\
   forall e, In e (word_counts all_text) ->
             (count_occ pystr_eq_dec (words all_text) t <= snd e)%nat).
Proof.
  intros Ht. apply Counter_complete in Ht.
  set (c := count_occ pystr_eq_dec (words all_text) t) in *.
  set (sorted := sort_desc (Counter (words all_text))).
  assert (Hin : In (t, c) sorted).
  { eapply Permutation_in; [symmetry; apply sort_desc_perm | exact Ht]. }
  assert (Hs : StronglySorted
                 (ranked_before (fun t => first_index t (words all_text)))
                 sorted).
  { apply sort_desc_sorted.
    apply (@StronglySorted_map_inv _ _
             (fun a b => (first_index a (words all_text) <
                          first_index b (words all_text))%nat) fst).
    apply Counter_keys. }
  unfold word_counts, most_common. fold sorted.
  rewrite <- (firstn_skipn 30 sorted) in Hin, Hs.
  apply in_app_or in Hin. destruct Hin as [Hin|Hin]; [now left|].
  right. split.
  - rewrite length_firstn.
    destruct (Nat.le_gt_cases 30 (length sorted)) as [|Hlt]; [lia|].
    rewrite skipn_all2 in Hin by lia. destruct Hin.
  - intros e He. apply StronglySorted_app_inv in Hs.
    destruct Hs as (_ & _ & Hcross).
    apply (ranked_before_count (Hcross e (t, c) He Hin)).
Qed.

(** The counts on the table never add up to more than the number of kept
    words, and they add up to exactly that number when the table has
    fewer than 30 entries. *)
Theorem word_counts_total (all_text : pystr) :
  (list_sum (map snd (word_counts all_text)) <= length (words all_text))%nat /\
  ((length (word_counts all_text) < 30)%nat ->
   list_sum (map snd (word_counts all_text)) = length (words all_text)).
Proof.
  set (sorted := sort_desc (Counter (words all_text))).
  assert (Htot : list_sum (map snd sorted) = length (words all_text)).
  { rewrite <- Counter_total. apply list_sum_perm, Permutation_map.
    apply sort_desc_perm. }
  unfold word_counts, most_common. fold sorted.
  rewrite <- (firstn_skipn 30 sorted) in Htot.
  rewrite map_app, list_sum_app in Htot. clearbody sorted.
  split; [lia|].
  intros Hlt. rewrite length_firstn in Hlt.
  rewrite skipn_all2 in Htot by lia.
  change (list_sum (map snd (@nil (pystr * nat)))) with 0%nat in Htot. lia.
Qed.

Lemma word_counts_nil (all_text : pystr) :
  word_counts all_text = [] <-> words all_text = [].
Proof.
  unfold word_counts, most_common.
  set (c := Counter (words all_text)).
  assert (Hlen : length (sort_desc c) = length c)
    by apply Permutation_length, sort_desc_perm.
  assert (Hc : c = [] <-> words all_text = []).
  { unfold c. split.
    - intros E. pose proof (Counter_total (words all_text)) as Ht.
      rewrite E in Ht. simpl in Ht.
      destruct (words all_text); [reflexivity | discriminate].
    - intros ->. reflexivity. }
  rewrite <- Hc. clearbody c.
  destruct c as [|e c]; destruct (sort_desc _) as [|e' l];
    simpl in *; try discriminate; split; trivial; discriminate.
Qed.

(** When white space is no word character, the keyword section shows the
    treemap exactly when some word survives the filter, with the table of
    [word_counts]; otherwise it shows one of its two information lines.
    It has no other outcome. *)
Theorem page3_keywords_outcome (texts : list pystr) :
  (forall ch, is_space ch = true -> word_char ch = false) ->
  (words (join_space texts) <> [] /\
   page3_keywords texts = Shown (word_counts (join_space texts))) \/
  (words (join_space texts) = [] /\ page3_keywords texts = Info).
Proof.
  intros Hsp. unfold page3_keywords.
  set (all_text := join_space texts).
  destruct (strip_nonempty all_text) eqn:Estrip.
  - destruct (word_counts all_text) as [|e l] eqn:Ewc.
    + right. split; [now apply word_counts_nil | reflexivity].
    + left. split; [|reflexivity].
      intros Hw. apply word_counts_nil in Hw. congruence.
  - right. split; [|reflexivity].
    assert (Hnone : filter word_char all_text = []).
    { unfold strip_nonempty in Estrip. clearbody all_text.
      induction all_text as [|ch s IH]; [reflexivity|].
      simpl in Estrip. apply orb_false_iff in Estrip.
      destruct Estrip as [Hch Hs]. apply negb_false_iff in Hch.
      simpl. rewrite (Hsp ch Hch). now apply IH. }
    destruct (findall_w_spec all_text) as [Htok Hcat].
    rewrite Hnone in Hcat. unfold words.
    destruct (findall_w [] all_text) as [|w ws]; [reflexivity|].
    inversion Htok as [|? ? [Hw _] _]; subst.
    simpl in Hcat. apply app_eq_nil in Hcat. tauto.
Qed.

End KeywordsMore.

(** * Further properties of the neighbour page *)



Lemma Qsquare_nonneg (x : Q) : 0 <= x * x.
Proof.
  destruct (Qlt_le_dec x 0) as [Hneg|Hpos].
  - setoid_replace (x * x) with ((- x) * (- x)) by ring.
    apply Qmult_le_0_compat; lra.
  - apply Qmult_le_0_compat; assumption.
Qed.

Lemma Qsquare_zero (x : Q) : x * x == 0 -> x == 0.
Proof.
  intros H. apply Qmult_integral in H. tauto.
Qed.

Lemma sqdist_nonneg (a b : vec3) : 0 <= sqdist a b.
Proof.
  destruct a as [[a1 a2] a3], b as [[b1 b2] b3]. unfold sqdist.
  pose proof (Qsquare_nonneg (a1 - b1)).
  pose proof (Qsquare_nonneg (a2 - b2)).
  pose proof (Qsquare_nonneg (a3 - b3)). lra.
Qed.

Lemma sqdist_self (a : vec3) : sqdist a a == 0.
Proof. destruct a as [[a1 a2] a3]. unfold sqdist. ring. Qed.

Lemma sqdist_zero (a b : vec3) : sqdist a b == 0 -> same_vec b a.
Proof.
  destruct a as [[a1 a2] a3], b as [[b1 b2] b3]. unfold sqdist, same_vec.
  simpl. intros H.
  pose proof (Qsquare_nonneg (a1 - b1)) as H1.
  pose proof (Qsquare_nonneg (a2 - b2)) as H2.
  pose proof (Qsquare_nonneg (a3 - b3)) as H3.
  assert (E1 : (a1 - b1) * (a1 - b1) == 0) by lra.
  assert (E2 : (a2 - b2) * (a2 - b2) == 0) by lra.
  assert (E3 : (a3 - b3) * (a3 - b3) == 0) by lra.
  apply Qsquare_zero in E1, E2, E3. repeat split; lra.
Qed.

Section EngineMore.

Context {lib : Library}.
Variable search : list vec3 -> nat -> vec3 -> list nat.

Lemma target_row_found (df : list Row) (selected : cell) (r : Row) :
  In r df -> cell_eqb (r_name r) selected = true ->
  exists t, target_row df selected = Some t /\
            cell_eqb (r_name t) selected = true.
Proof.
  unfold target_row. induction df as [|x df IH]; simpl; [tauto|].
  intros Hin Hr. destruct (cell_eqb (r_name x) selected) eqn:E.
  - exists x. now split.
  - destruct Hin as [->|Hin]; [congruence|]. now apply IH.
Qed.

Lemma target_row_position (df : list Row) (selected : cell) (t : Row) :
  target_row df selected = Some t ->
  exists a, target_index df selected = Some a /\
            nth_error df a = Some t /\ (a < length df)%nat.
Proof.
  intros Ht. rewrite target_row_index in Ht.
  destruct (target_index df selected) as [a|]; [|discriminate].
  exists a. repeat split; trivial.
  apply nth_error_Some. congruence.
Qed.

Lemma fit_X_nth (df : list Row) (a : nat) (t : Row) :
  nth_error df a = Some t -> nth a (fit_X df) origin = numeric_vec t.
Proof.
  intros H. apply nth_error_nth. unfold fit_X. now apply map_nth_error.
Qed.


Hypothesis contract : KnnContract search.

Lemma search_head (df : list Row) (selected : cell) (t : Row) :
  target_row df selected = Some t ->
  exists i0 rest,
    search (fit_X df) (n_neighbors df) (target_vec t) = i0 :: rest /\
    (i0 < length df)%nat /\
    sqdist (target_vec t) (nth i0 (fit_X df) origin) == 0.
Proof.
  intros Ht.
  destruct (@target_row_position df selected t Ht) as (a & _ & Ha & Hlt).
  pose proof (@fit_X_nth df a t Ha) as Hva.
  set (X := fit_X df) in *. set (q := target_vec t).
  set (k := n_neighbors df).
  assert (HX : length X = length df) by (unfold X, fit_X; apply length_map).
  assert (Hk : (1 <= k <= length X)%nat) by (unfold k, n_neighbors; lia).
  pose proof (@knn_length search contract X k q ltac:(lia)) as Hlen.
  pose proof (@knn_range search contract X k q) as Hrange.
  pose proof (@knn_sorted search contract X k q) as Hs.
  pose proof (@knn_nearest search contract X k q) as Hnear.
  destruct (search X k q) as [|i0 rest]; [simpl in Hlen; lia|].
  exists i0, rest. split; [reflexivity|].
  assert (Hi0 : (i0 < length X)%nat) by (apply Hrange; now left).
  split; [lia|].
  assert (Hle : sqdist q (nth i0 X origin) <= sqdist q (nth a X origin)).
  { destruct (in_dec Nat.eq_dec a (i0 :: rest)) as [Hin|Hout].
    - destruct Hin as [<-|Hin]; [apply Qle_refl|].
      inversion Hs as [|? ? _ Hall]; subst.
      rewrite Forall_forall in Hall. now apply Hall.
    - apply Hnear; [lia | now left | lia | exact Hout]. }
  rewrite Hva in Hle. unfold q, target_vec in Hle.
  pose proof (sqdist_self (numeric_vec t)) as Hz.
  pose proof (sqdist_nonneg (numeric_vec t) (nth i0 X origin)) as Hnn.
  unfold q, target_vec. lra.
Qed.

(** The entry that page 4 drops from the front of the search result is a
    row with the trait vector of the anchor: at distance 0 from it, with
    the same three numbers. *)
Theorem dropped_entry_is_twin (df : list Row) (selected : cell) (t : Row) :
  target_row df selected = Some t ->
  exists i0 rest,
    search (fit_X df) (n_neighbors df) (target_vec t) = i0 :: rest /\
    neighbor_indices_with search df selected = Some rest /\
    (i0 < length df)%nat /\
    sqdist (target_vec t) (nth i0 (fit_X df) origin) == 0 /\
    same_vec (nth i0 (fit_X df) origin) (target_vec t).
Proof.
  intros Ht. destruct (@search_head df selected t Ht) as (i0 & rest & E & Hlt & Hz).
  exists i0, rest.
  split; [exact E|]. split; [unfold neighbor_indices_with; now rewrite Ht, E|].
  split; [exact Hlt|]. split; [exact Hz|]. now apply sqdist_zero.
Qed.

(** When no other row of the frame has the trait vector of the anchor,
    the anchor is never on its own list of neighbours. *)
Theorem unique_anchor_not_listed (df : list Row) (selected : cell)
    (a : nat) (l : list nat) :
  target_index df selected = Some a ->
  (forall j, (j < length df)%nat -> j <> a ->
     ~ sqdist (nth a (fit_X df) origin) (nth j (fit_X df) origin) == 0) ->
  neighbor_indices_with search df selected = Some l ->
  ~ In a l.
Proof.
  intros Ha Huniq Hl Hin.
  unfold neighbor_indices_with in Hl.
  destruct (target_row df selected) as [t|] eqn:Ht; [|discriminate].
  destruct (@target_row_position df selected t Ht) as (a' & Ha' & Hnth & Hlt).
  assert (a' = a) by congruence. subst a'.
  destruct (@search_head df selected t Ht) as (i0 & rest & E & Hi0 & Hz).
  rewrite E in Hl. simpl in Hl. injection Hl as <-.
  pose proof (@knn_nodup search contract (fit_X df) (n_neighbors df)
                (target_vec t)) as Hnd.
  rewrite E in Hnd. inversion Hnd as [|? ? Hnotin _]; subst.
  destruct (Nat.eq_dec i0 a) as [->|Hne]; [contradiction|].
  apply (Huniq i0 Hi0 Hne).
  rewrite (@fit_X_nth df a t Hnth). exact Hz.
Qed.

End EngineMore.

(** * Further properties of [get_data] *)

Section FetchMore.

Context {lib : Library}.

(** No row of the activities sheet is dropped, not even a row whose cells
    are all empty: the traits are filled with 0 before the rows are
    filtered, so such a row comes back as an activity of four zeros.
    The frame keeps the length, the order and the text columns of the
    sheet.  On the questions sheet, which has no numeric column, the rows
    whose cells are all empty are the ones that go. *)
Theorem get_data_keeps_every_row (rows : list Row) (qrows : list QuestionRow) :
  length (get_data (Some rows)) = length rows /\
  map r_name (get_data (Some rows)) = map r_name rows /\
  map memo (get_data (Some rows)) = map memo rows /\
  (forall i, nth_error rows i = Some (mkRow NA NA NA NA NA NA NA NA) ->
     nth_error (get_data (Some rows)) i =
       Some (mkRow NA NA NA (Num 0) (Num 0) (Num 0) (Num 0) NA)) /\
  (forall q, In q (get_data_questions (Some qrows)) <->
             In q qrows /\ ~ (q_item q = NA /\ q_material q = NA /\ q_content q = NA)).
Proof.
  rewrite get_data_rows. repeat apply conj.
  - apply length_map.
  - rewrite map_map. reflexivity.
  - rewrite map_map. reflexivity.
  - intros i Hi. now apply map_nth_error with (f := coerce_traits) in Hi.
  - intros q. unfold get_data_questions. rewrite filter_In.
    unfold question_all_na.
    destruct q as [[| |] [| |] [| |]]; simpl;
      split; intros [H1 H2]; split; trivial; try discriminate;
      try (intros (A & B & C); discriminate);
      exfalso; apply H2; repeat split.
Qed.

End FetchMore.

(** * Properties of the material labels of page 5 *)

Lemma starts_with_prefix (p s : pystr) :
  starts_with p s = true -> s = p ++ skipn (length p) s.
Proof.
  revert s. induction p as [|x p IH]; intros s; simpl; [reflexivity|].
  destruct s as [|y s]; [discriminate|].
  intros H. apply andb_true_iff in H. destruct H as [Hxy Hp].
  apply N.eqb_eq in Hxy. subst y. simpl. f_equal. now apply IH.
Qed.

Lemma starts_with_app (p s t : pystr) :
  starts_with p s = true -> starts_with p (s ++ t) = true.
Proof.
  revert s. induction p as [|x p IH]; intros s; simpl; [reflexivity|].
  destruct s as [|y s]; [discriminate|]. simpl.
  intros H. apply andb_true_iff in H. destruct H as [Hxy Hp].
  rewrite Hxy. simpl. now apply IH.
Qed.

Lemma split_no_sep (sep s cur : pystr) :
  occurs sep s = false -> split_aux sep 0 cur s = [rev cur ++ s].
Proof.
  revert cur. induction s as [|ch s IH]; intros cur H.
  - cbn [split_aux]. now rewrite app_nil_r.
  - cbn [occurs] in H. apply orb_false_iff in H. destruct H as [H1 H2].
    cbn [split_aux]. rewrite H1, (IH (ch :: cur) H2). simpl.
    now rewrite <- app_assoc.
Qed.

Lemma split_first_sep (sep s cur : pystr) :
  sep <> [] -> occurs sep s = true ->
  exists p rest,
    s = p ++ sep ++ rest /\ occurs sep p = false /\
    hd_error (split_aux sep 0 cur s) = Some (rev cur ++ p).
Proof.
  intros Hsep. revert cur. induction s as [|ch s IH]; intros cur H.
  - destruct sep; [congruence | discriminate].
  - cbn [occurs] in H. cbn [split_aux].
    destruct (starts_with sep (ch :: s)) eqn:E.
    + exists [], (skipn (length sep) (ch :: s)). repeat apply conj.
      * now apply starts_with_prefix.
      * destruct sep; [congruence | reflexivity].
      * simpl. now rewrite app_nil_r.
    + simpl in H. destruct (IH (ch :: cur) H) as (p & rest & Hs & Hp & Hhd).
      exists (ch :: p), rest. repeat apply conj.
      * simpl. now rewrite Hs.
      * cbn [occurs]. rewrite Hp, orb_false_r.
        destruct (starts_with sep (ch :: p)) eqn:E'; [|reflexivity].
        apply starts_with_app with (t := sep ++ rest) in E'.
        simpl in E'. rewrite <- Hs in E'. congruence.
      * rewrite Hhd. simpl. now rewrite <- app_assoc.
Qed.

Lemma cell_eqb_Str (c : cell) (s : pystr) :
  cell_eqb c (Str s) = true -> c = Str s.
Proof.
  destruct c as [q|t|]; simpl; try discriminate.
  intros H. apply pystr_eqb_eq in H. now subst.
Qed.

Lemma hd_filter_found (A : Type) (f : A -> bool) (l : list A) (x : A) :
  In x l -> f x = true ->
  exists y, hd_error (filter f l) = Some y /\ f y = true.
Proof.
  induction l as [|a l IH]; simpl; [tauto|].
  intros Hin Hx. destruct (f a) eqn:E.
  - exists a. now split.
  - destruct Hin as [->|Hin]; [congruence|]. now apply IH.
Qed.

Section DraftingProps.

Context {lib : Library}.
Variable format_missing : pystr.

Lemma evidence_line_activity (acts : list Row) (subs : list SubjectRow)
    (books : list BookRow) (name : pystr) :
  evidence_line format_missing acts subs books (tag_activity ++ name) =
  match hd_error (split sep_bracket name) with
  | Some m_name =>
      option_map (fun r => evidence_entry (tag_activity ++ name)
                                          (detail_activity format_missing r))
                 (target_row acts (Str m_name))
  | None => None
  end.
Proof.
  unfold evidence_line.
  change (split sep_bracket (tag_activity ++ name))
    with ([91; 54876; 46041]%N :: split sep_bracket name).
  cbn [nth_error].
  destruct (split sep_bracket name) as [|m_name l]; cbn [nth_error hd_error];
    [reflexivity|].
  change (pystr_eqb (remove_char 93 (remove_char 91 [91; 54876; 46041]%N))
                    type_activity) with true.
  cbv iota. now destruct (target_row acts (Str m_name)).
Qed.

Lemma evidence_line_subject (acts : list Row) (subs : list SubjectRow)
    (books : list BookRow) (name : pystr) :
  evidence_line format_missing acts subs books (tag_subject ++ name) =
  match hd_error (split sep_bracket name) with
  | Some m_name =>
      option_map (fun r => evidence_entry (tag_subject ++ name)
                                          (detail_subject format_missing r))
                 (hd_error (filter (fun r => cell_eqb (s_name r) (Str m_name)) subs))
  | None => None
  end.
Proof.
  unfold evidence_line.
  change (split sep_bracket (tag_subject ++ name))
    with ([91; 44284; 47785]%N :: split sep_bracket name).
  cbn [nth_error].
  destruct (split sep_bracket name) as [|m_name l]; cbn [nth_error hd_error];
    [reflexivity|].
  change (pystr_eqb (remove_char 93 (remove_char 91 [91; 44284; 47785]%N))
                    type_activity) with false.
  change (pystr_eqb (remove_char 93 (remove_char 91 [91; 44284; 47785]%N))
                    type_subject) with true.
  cbv iota. now destruct (hd_error _).
Qed.

Lemma evidence_line_book (acts : list Row) (subs : list SubjectRow)
    (books : list BookRow) (name : pystr) :
  evidence_line format_missing acts subs books (tag_book ++ name) =
  match hd_error (split sep_bracket name) with
  | Some m_name =>
      option_map (fun r => evidence_entry (tag_book ++ name)
                                          (detail_book format_missing r))
                 (hd_error (filter (fun r => cell_eqb (b_name r) (Str m_name)) books))
  | None => None
  end.
Proof.
  unfold evidence_line.
  change (split sep_bracket (tag_book ++ name))
    with ([91; 46021; 49436]%N :: split sep_bracket name).
  cbn [nth_error].
  destruct (split sep_bracket name) as [|m_name l]; cbn [nth_error hd_error];
    [reflexivity|].
  change (pystr_eqb (remove_char 93 (remove_char 91 [91; 46021; 49436]%N))
                    type_activity) with false.
  change (pystr_eqb (remove_char 93 (remove_char 91 [91; 46021; 49436]%N))
                    type_subject) with false.
  change (pystr_eqb (remove_char 93 (remove_char 91 [91; 46021; 49436]%N))
                    type_book) with true.
  cbv iota. now destruct (hd_error _).
Qed.

End DraftingProps.

Section DraftingLabels.

Context {lib : Library}.
Variable format_missing : pystr.

(** A record whose name is a text without '] ' is found again from its
    label: the label is among the materials, it parses back to the type
    and the name, and the evidence line carries the details of the first
    row of that name in the frame of that type. *)
Theorem material_round_trip (acts : list Row) (subs : list SubjectRow)
    (books : list BookRow) :
  (forall r name,
     In r acts -> r_name r = Str name -> occurs sep_bracket name = false ->
     In (tag_activity ++ name) (all_materials format_missing acts subs books) /\
     exists r0,
       target_row acts (Str name) = Some r0 /\ r_name r0 = Str name /\
       evidence_line format_missing acts subs books (tag_activity ++ name) =
       Some (evidence_entry (tag_activity ++ name)
                            (detail_activity format_missing r0))) /\
  (forall r name,
     In r subs -> s_name r = Str name -> occurs sep_bracket name = false ->
     In (tag_subject ++ name) (all_materials format_missing acts subs books) /\
     exists r0,
       hd_error (filter (fun x => cell_eqb (s_name x) (Str name)) subs) = Some r0 /\
       s_name r0 = Str name /\
       evidence_line format_missing acts subs books (tag_subject ++ name) =
       Some (evidence_entry (tag_subject ++ name)
                            (detail_subject format_missing r0))) /\
  (forall r name,
     In r books -> b_name r = Str name -> occurs sep_bracket name = false ->
     In (tag_book ++ name) (all_materials format_missing acts subs books) /\
     exists r0,
       hd_error (filter (fun x => cell_eqb (b_name x) (Str name)) books) = Some r0 /\
       b_name r0 = Str name /\
       evidence_line format_missing acts subs books (tag_book ++ name) =
       Some (evidence_entry (tag_book ++ name)
                            (detail_book format_missing r0))).
Proof.
  assert (Hsplit : forall name, occurs sep_bracket name = false ->
                     hd_error (split sep_bracket name) = Some name).
  { intros name H. unfold split.
    now rewrite (@split_no_sep sep_bracket name [] H). }
  split; [|split].
  - intros r name Hr Hname Hocc. split.
    + unfold all_materials. apply in_or_app. left.
      apply in_map_iff. exists r. split; [|exact Hr].
      now rewrite Hname.
    + destruct (@target_row_found acts (Str name) r Hr) as (r0 & Ht & He).
      { rewrite Hname. apply pystr_eqb_refl. }
      exists r0. split; [exact Ht|]. split; [now apply cell_eqb_Str|].
      rewrite evidence_line_activity, (Hsplit name Hocc), Ht. reflexivity.
  - intros r name Hr Hname Hocc. split.
    + unfold all_materials. apply in_or_app. right. apply in_or_app. left.
      apply in_map_iff. exists r. split; [|exact Hr].
      now rewrite Hname.
    + destruct (@hd_filter_found _ (fun x => cell_eqb (s_name x) (Str name))
                  subs r Hr) as (r0 & Ht & He).
      { rewrite Hname. apply pystr_eqb_refl. }
      exists r0. split; [exact Ht|]. split; [now apply cell_eqb_Str|].
      rewrite evidence_line_subject, (Hsplit name Hocc), Ht. reflexivity.
  - intros r name Hr Hname Hocc. split.
    + unfold all_materials. apply in_or_app. right. apply in_or_app. right.
      apply in_map_iff. exists r. split; [|exact Hr].
      now rewrite Hname.
    + destruct (@hd_filter_found _ (fun x => cell_eqb (b_name x) (Str name))
                  books r Hr) as (r0 & Ht & He).
      { rewrite Hname. apply pystr_eqb_refl. }
      exists r0. split; [exact Ht|]. split; [now apply cell_eqb_Str|].
      rewrite evidence_line_book, (Hsplit name Hocc), Ht. reflexivity.
Qed.

(** An activity whose name holds '] ' is looked up under the part of the
    name before its first '] ': the evidence line carries the details of
    the first activity of that shorter name, never of an activity of the
    full name, and the item is passed over when no activity has the
    shorter name. *)
Theorem material_truncated (acts : list Row) (subs : list SubjectRow)
    (books : list BookRow) (name : pystr) :
  occurs sep_bracket name = true ->
  exists p rest,
    name = p ++ sep_bracket ++ rest /\ occurs sep_bracket p = false /\
    evidence_line format_missing acts subs books (tag_activity ++ name) =
      option_map (fun r => evidence_entry (tag_activity ++ name)
                                          (detail_activity format_missing r))
                 (target_row acts (Str p)) /\
    (target_row acts (Str p) = None ->
     evidence_line format_missing acts subs books (tag_activity ++ name) = None) /\
    (forall r0, target_row acts (Str p) = Some r0 ->
                r_name r0 = Str p /\ r_name r0 <> Str name).
Proof.
  intros Hocc.
  destruct (@split_first_sep sep_bracket name []) as (p & rest & Hs & Hp & Hhd);
    [discriminate | exact Hocc |].
  simpl in Hhd. exists p, rest.
  assert (Hline :
    evidence_line format_missing acts subs books (tag_activity ++ name) =
    option_map (fun r => evidence_entry (tag_activity ++ name)
                                        (detail_activity format_missing r))
               (target_row acts (Str p))).
  { rewrite evidence_line_activity. unfold split. now rewrite Hhd. }
  split; [exact Hs|]. split; [exact Hp|]. split; [exact Hline|]. split.
  - intros Hnone. now rewrite Hline, Hnone.
  - intros r0 Hr0. unfold target_row in Hr0.
    assert (Hin : In r0 (filter (fun r => cell_eqb (r_name r) (Str p)) acts)).
    { destruct (filter _ acts) as [|x l]; [discriminate|].
      simpl in Hr0. injection Hr0 as ->. now left. }
    apply filter_In in Hin. destruct Hin as [_ He].
    apply cell_eqb_Str in He. split; [exact He|].
    rewrite He. intros [= E].
    apply (f_equal (@length N)) in Hs. rewrite E in Hs.
    rewrite !length_app in Hs. simpl in Hs. lia.
Qed.

End DraftingLabels.

(** ** Samples for the further properties *)

Example bracket_label_shows_other_activity :
  evidence_line (lib:=sample_library) sample_missing bracket_df [] []
                (tag_activity ++ bracket_name) =
  Some (evidence_entry (tag_activity ++ bracket_name)
          (detail_activity (lib:=sample_library) sample_missing
                           (activity [97%N] 1 2 3 10))).
Proof. reflexivity. Qed.


Lemma My_Score_monotone_witness :
  My_Score (lib:=sample_library) default_weights spread_df
           (activity [97%N] 0 3 3 50) <=
  My_Score (lib:=sample_library) default_weights spread_df
           (activity [98%N] 5 3 4 50).
Proof.
  apply (@My_Score_monotone sample_library default_weights spread_df);
    try reflexivity; try (simpl; lra);
    try (intros c; destruct c; vm_compute; discriminate);
    simpl; auto.
Defined.

Lemma norm_extremes_attained_witness :
  exists r0 r1, In r0 spread_df /\ In r1 spread_df /\
                value (lib:=sample_library) Ach r0 = 0 /\
                value (lib:=sample_library) Ach r1 = 10 /\
                norm (lib:=sample_library) spread_df Ach r0 == 0 /\
                norm (lib:=sample_library) spread_df Ach r1 == 1.
Proof.
  apply (@norm_extremes_attained sample_library spread_df Ach 0 10).
  - reflexivity.
  - reflexivity.
  - reflexivity.
  - vm_compute. discriminate.
Defined.

Lemma top_df_last_is_best_witness :
  exists front best,
    top_df (lib:=sample_library) default_weights spread_df = front ++ [best] /\
    In (fst best) spread_df /\
    snd best = My_Score (lib:=sample_library) default_weights spread_df (fst best) /\
    forall r, In r spread_df ->
              My_Score (lib:=sample_library) default_weights spread_df r <= snd best.
Proof.
  apply (@top_df_last_is_best sample_library default_weights spread_df).
  - reflexivity.
  - simpl. lia.
Defined.

Lemma findall_w_join_witness :
  findall_w (lib:=sample_library) [] (join_space [[97; 98]%N; [99; 100]%N]) =
  flat_map (findall_w (lib:=sample_library) []) [[97; 98]%N; [99; 100]%N].
Proof.
  apply (@findall_w_join sample_library). reflexivity.
Defined.

Lemma word_counts_top_witness :
  In ([44221; 54744]%N,
      count_occ pystr_eq_dec (words (lib:=sample_library) sample_text)
                [44221; 54744]%N)
     (word_counts (lib:=sample_library) sample_text) \/
  ((30 <= length (word_counts (lib:=sample_library) sample_text))%nat /\
   forall e, In e (word_counts (lib:=sample_library) sample_text) ->
     (count_occ pystr_eq_dec (words (lib:=sample_library) sample_text)
                [44221; 54744]%N <= snd e)%nat).
Proof.
  apply (@word_counts_top sample_library sample_text [44221; 54744]%N).
  vm_compute. auto.
Defined.

Lemma word_counts_total_witness :
  list_sum (map snd (word_counts (lib:=sample_library) sample_text)) =
  length (words (lib:=sample_library) sample_text).
Proof.
  apply (@word_counts_total sample_library sample_text). vm_compute. lia.
Defined.


Lemma dropped_entry_is_twin_witness :
  exists i0 rest,
    kneighbors (fit_X (lib:=sample_library) twin_df)
               (n_neighbors twin_df)
               (target_vec (lib:=sample_library) (activity [65%N] 1 1 1 20)) =
      i0 :: rest /\
    neighbor_indices (lib:=sample_library) twin_df (Str [65%N]) = Some rest /\
    (i0 < length twin_df)%nat /\
    sqdist (target_vec (lib:=sample_library) (activity [65%N] 1 1 1 20))
           (nth i0 (fit_X (lib:=sample_library) twin_df) origin) == 0 /\
    same_vec (nth i0 (fit_X (lib:=sample_library) twin_df) origin)
             (target_vec (lib:=sample_library) (activity [65%N] 1 1 1 20)).
Proof.
  apply (@dropped_entry_is_twin sample_library kneighbors kneighbors_contract
           twin_df (Str [65%N]) (activity [65%N] 1 1 1 20)).
  reflexivity.
Defined.

Lemma unique_anchor_not_listed_witness :
  ~ In 0%nat [3; 2; 1]%nat.
Proof.
  apply (@unique_anchor_not_listed sample_library kneighbors kneighbors_contract
           homonym_df (Str [67%N]) 0%nat [3; 2; 1]%nat).
  - reflexivity.
  - intros j Hj Hne E. apply Qeq_bool_iff in E.
    destruct j as [|[|[|[|j]]]]; try lia; try (vm_compute in E; discriminate).
    simpl in Hj. lia.
  - reflexivity.
Defined.

Lemma material_round_trip_witness :
  evidence_line (lib:=sample_library) sample_missing bracket_df [] []
                (tag_activity ++ [99%N]) =
  Some (evidence_entry (tag_activity ++ [99%N])
          (detail_activity (lib:=sample_library) sample_missing
                           (activity [99%N] 7 8 9 30))).
Proof.
  destruct (@material_round_trip sample_library sample_missing bracket_df [] [])
    as (Hact & _).
  destruct (Hact (activity [99%N] 7 8 9 30) [99%N]) as (_ & r0 & Ht & _ & Hline).
  - simpl. auto.
  - reflexivity.
  - reflexivity.
  - rewrite Hline. vm_compute in Ht. injection Ht as <-. reflexivity.
Defined.

Lemma material_truncated_witness :
  exists p rest,
    bracket_name = p ++ sep_bracket ++ rest /\ occurs sep_bracket p = false /\
    evidence_line (lib:=sample_library) sample_missing bracket_df [] []
                  (tag_activity ++ bracket_name) =
      option_map (fun r => evidence_entry (tag_activity ++ bracket_name)
                             (detail_activity (lib:=sample_library) sample_missing r))
                 (target_row bracket_df (Str p)) /\
    (target_row bracket_df (Str p) = None ->
     evidence_line (lib:=sample_library) sample_missing bracket_df [] []
                   (tag_activity ++ bracket_name) = None) /\
    (forall r0, target_row bracket_df (Str p) = Some r0 ->
                r_name r0 = Str p /\ r_name r0 <> Str bracket_name).
Proof.
  apply (@material_truncated sample_library sample_missing bracket_df [] []
           bracket_name).
  reflexivity.
Defined.

Lemma page3_keywords_outcome_witness :
  page3_keywords (lib:=sample_library) [sample_text] =
  Shown (word_counts (lib:=sample_library) (join_space [sample_text])).
Proof.
  destruct (@page3_keywords_outcome sample_library [sample_text])
    as [[_ H]|[H _]].
  - intros ch Hch. unfold is_space, word_char in *. simpl in *.
    unfold sample_is_space in Hch. unfold sample_word_char.
    apply orb_true_iff in Hch. destruct Hch as [Hch|Hch].
    + apply N.eqb_eq in Hch. subst ch. reflexivity.
    + apply andb_true_iff in Hch. destruct Hch as [H1 H2].
      apply N.leb_le in H1, H2.
      repeat (apply orb_false_iff; split);
        try (apply andb_false_iff; left; apply N.leb_gt; lia);
        apply N.eqb_neq; lia.
  - exact H.
  - vm_compute in H. discriminate.
Defined.

(** * The ranking on machine numbers *)

Lemma wrap64_in_range (z : Z) :
  (- 9223372036854775808 <= z < 9223372036854775808)%Z -> wrap64 z = z.
Proof.
  intros H. unfold wrap64.
  rewrite Z.mod_small by lia. lia.
Qed.

Lemma fold_Zmin_bounds (B : Z) (t : list Z) (x : Z) :
  Forall (fun v => (- B <= v <= B)%Z) (x :: t) ->
  (- B <= fold_left Z.min t x <= B)%Z /\
  Forall (fun v => (fold_left Z.min t x <= v)%Z) (x :: t).
Proof.
  revert x. induction t as [|y t IH]; intros x H; simpl.
  - inversion H; subst. split; [assumption|]. constructor; [lia | constructor].
  - inversion H as [|? ? Hx Ht]; subst. inversion Ht as [|? ? Hy Ht']; subst.
    destruct (IH (Z.min x y)) as [Hb Hl]; [constructor; [lia | assumption]|].
    split; [exact Hb|].
    inversion Hl as [|? ? Hm Hl']; subst.
    constructor; [lia|]. constructor; [lia | exact Hl'].
Qed.

Lemma fold_Zmax_bounds (B : Z) (t : list Z) (x : Z) :
  Forall (fun v => (- B <= v <= B)%Z) (x :: t) ->
  (- B <= fold_left Z.max t x <= B)%Z /\
  Forall (fun v => (v <= fold_left Z.max t x)%Z) (x :: t).
Proof.
  revert x. induction t as [|y t IH]; intros x H; simpl.
  - inversion H; subst. split; [assumption|]. constructor; [lia | constructor].
  - inversion H as [|? ? Hx Ht]; subst. inversion Ht as [|? ? Hy Ht']; subst.
    destruct (IH (Z.max x y)) as [Hb Hl]; [constructor; [lia | assumption]|].
    split; [exact Hb|].
    inversion Hl as [|? ? Hm Hl']; subst.
    constructor; [lia|]. constructor; [lia | exact Hl'].
Qed.

(** On an int64 column whose values lie between -2^53 and 2^53 no
    subtraction wraps: the loop divides the true differences, so every
    normalised value is the quotient of [v - min] by [max - min], both
    between 0 and 2^54, rounded to a float. *)
Lemma norm_column_int64_in_range (x : Z) (t : list Z) :
  Forall (fun v => (- 9007199254740992 <= v <= 9007199254740992)%Z) (x :: t) ->
  let min_val := fold_left Z.min t x in
  let max_val := fold_left Z.max t x in
  norm_column (I64 (x :: t)) =
    (if (max_val - min_val =? 0)%Z
     then map (fun _ => f64_half) (x :: t)
     else map (fun v => f64_div (f64_of_Z (v - min_val))
                                (f64_of_Z (max_val - min_val)))
              (x :: t)) /\
  Forall (fun v => (0 <= v - min_val <= max_val - min_val)%Z) (x :: t).
Proof.
  intros H min_val max_val.
  destruct (@fold_Zmin_bounds 9007199254740992 t x H) as [Hmn Hlo].
  destruct (@fold_Zmax_bounds 9007199254740992 t x H) as [Hmx Hhi].
  fold min_val in Hmn, Hlo. fold max_val in Hmx, Hhi.
  assert (Hall : Forall (fun v => (0 <= v - min_val <= max_val - min_val)%Z)
                        (x :: t)).
  { rewrite Forall_forall in *. intros v Hv.
    specialize (Hlo v Hv). specialize (Hhi v Hv). lia. }
  split; [|exact Hall].
  cbn [norm_column]. fold min_val max_val.
  rewrite (wrap64_in_range (z := max_val - min_val)) by lia.
  destruct (max_val - min_val =? 0)%Z; [reflexivity|].
  apply map_ext_in. intros v Hv.
  rewrite Forall_forall in H, Hall. specialize (H v Hv). specialize (Hall v Hv).
  rewrite (wrap64_in_range (z := v - min_val)) by lia. reflexivity.
Qed.

(** C1 fails outside the range.  On the int64 column -5e18, 0, 5e18 the
    difference max - min wraps around, the minimum and the maximum differ
    and yet the second normalised value is negative (about -0.59).  On the
    float64 column 0, 5, inf the third normalised value is NaN. *)
Lemma normalization_leaves_unit_interval :
  norm_column wide_column =
    [S754_zero true; S754_finite true 5331758116583557 (-53); f64_of_Z 1] /\
  SFltb (nth 1 (norm_column wide_column) f64_zero) f64_zero = true /\
  norm_column infinite_column = [f64_zero; f64_zero; S754_nan] /\
  SFleb f64_zero (nth 2 (norm_column infinite_column) f64_zero) = false.
Proof. repeat split; vm_compute; reflexivity. Qed.

(** C3 fails outside the range.  With the achievement column 0, 5, inf
    and all weights 1 the score of the third row is NaN; the sort puts it
    last and the ranking keeps it as its last row, so the ranking is not
    in ascending order of score and its last row is not a highest one. *)
Lemma top_df_ends_in_nan :
  top_df_m unit_mweights infinite_frame =
    [ (0%nat, S754_finite false 6755399441055744 (-52));
      (1%nat, S754_finite false 6755399441055744 (-52));
      (2%nat, S754_nan) ] /\
  f64_ascending (map snd (top_df_m unit_mweights infinite_frame)) = false.
Proof. split; vm_compute; reflexivity. Qed.

(** C6 fails for a factor other than two and outside the range.  On the
    achievement column 0, 3, 10 the second row has the normalised value
    0.3: with the weight 0.1 multiplied by 3 its summand is not 3 times
    the summand at 0.1, and for the third row (normalised value 1) the
    summand at the slider value 0.3 is not 3 times the summand at 0.1.
    With the column 0, 5, inf and all weights 0 the third score is NaN,
    not 0. *)
Lemma contribution_not_tripled :
  SFeqb (nth 1 (contribution_column (f64_mul (f64_of_Z 3) f64_tenth)
                                    steps_column) f64_zero)
        (f64_mul (f64_of_Z 3)
                 (nth 1 (contribution_column f64_tenth steps_column) f64_zero))
    = false /\
  SFeqb (nth 2 (contribution_column f64_three_tenths steps_column) f64_zero)
        (f64_mul (f64_of_Z 3)
                 (nth 2 (contribution_column f64_tenth steps_column) f64_zero))
    = false /\
  nth 2 (My_Score_column zero_mweights infinite_frame) f64_zero = S754_nan.
Proof. repeat split; vm_compute; reflexivity. Qed.

(** The page outcome does depend on the flow column: with a flow score of
    -100 the marker size is -20 and page 4 ends in its error branch, on a
    frame that agrees with [twin_df] on names and on the three columns of
    the distance and has the same neighbour list. *)
Example flow_reaches_page4 (lib : Library) :
  Forall2 same_metric_columns twin_df twin_df_negative_flow /\
  page4 twin_df (Str [65%N]) = Shown [1; 2]%nat /\
  page4 twin_df_negative_flow (Str [65%N]) = Error /\
  neighbor_indices twin_df_negative_flow (Str [65%N]) = Some [1; 2]%nat.
Proof.
  split; [repeat constructor|]. repeat split.
Qed.
